(** * sophie: a client of the Sophie scanning protocol

    A shallow embedding of [sophie.go] (package [sophie]): the [Client]
    configuration, the dial loop with its retry policy, the two request
    paths ([fileCmd] for a path, [readerCmd] for a stream) and the decoding
    of the daemon's status line ([processResponse]).  The revision
    embedded is the one with [defaultCmdTimeout] and the named error
    formats; [Module Earlier] keeps what the earlier revision did
    otherwise.

    The Go code talks to a file system and to a socket.  Both are modelled
    by an environment of oracles (what [os.Stat], [os.Open], [Dialer.Dial],
    the writes and [ReadLine] answer) and a state that counts the calls and
    records every effect in a trace.  A computation is a function from the
    environment and the state to an outcome and a new state; an outcome is
    a returned value or a Go run-time panic. *)

From Stdlib Require Import String Ascii ZArith List Bool Lia DecimalString.
From ExtLib Require Import Structures.Monad.
Import ListNotations.
Import MonadNotation.
Local Open Scope string_scope.
Local Open Scope Z_scope.
Local Open Scope monad_scope.

(** ** Go values *)

(** [time.Duration] is an int64 count of nanoseconds. *)
Definition Duration := Z.
Definition Second : Duration := 1000000000.
Definition Minute : Duration := 60 * Second.

(** The largest [int] (64-bit platforms). *)
Definition maxInt : Z := 2 ^ 63 - 1.

(** Errors.  The operating system and the network produce [sys_error]
    values; the package itself builds its errors with [fmt.Errorf]. *)
Inductive Errno := ENOENT | EACCES | ENOTDIR | EIO.

Inductive sys_error :=
| PathError (op path : string) (errno : Errno)   (* *os.PathError *)
| NetError (timeout : bool) (msg : string)       (* a value implementing net.Error *)
| EOF                                            (* io.EOF *)
| OtherError (msg : string).

Inductive error :=
| Errorf (msg : string)                          (* fmt.Errorf(...) *)
| Sys (e : sys_error).

(** A fallible call of the environment: Go's [(v, err)] with exactly one of
    the two set. *)
Inductive result (A : Type) :=
| Ok (a : A)
| Err (e : sys_error).
Arguments Ok {A} a.
Arguments Err {A} e.

(** [os.IsNotExist(err)]. *)
Definition os_IsNotExist (err : option error) : bool :=
  match err with
  | Some (Sys (PathError _ _ ENOENT)) => true
  | _ => false
  end.

(** [e, ok := err.(net.Error); ok && e.Timeout()]. *)
Definition isTimeout (err : option error) : bool :=
  match err with
  | Some (Sys (NetError t _)) => t
  | _ => false
  end.

(** [os.FileInfo], as far as the package looks at it. *)
Record FileInfo := { IsDir : bool; Size : Z }.

(** An open [*os.File]: its name, what [f.Stat()] answers and the bytes
    that reading it yields. *)
Record File := {
  file_name : string;
  file_stat : result FileInfo;
  file_data : string
}.

(** A connection handed out by [Dialer.Dial]. *)
Record Conn := { conn_id : nat }.

(** The [io.Reader] values [readerCmd] tells apart with its type switch;
    each carries the bytes not read yet.  [OtherReader] stands for every
    other implementation of [io.Reader] (a [bzip2] reader, a pipe, ...). *)
Inductive Reader :=
| BytesBuffer (unread : string)      (* *bytes.Buffer *)
| BytesReader (unread : string)      (* *bytes.Reader *)
| StringsReader (unread : string)    (* *strings.Reader *)
| OsFile (f : File)                  (* *os.File *)
| OtherReader (content : string).

Definition reader_data (i : Reader) : string :=
  match i with
  | BytesBuffer d | BytesReader d | StringsReader d | OtherReader d => d
  | OsFile f => file_data f
  end.

(** ** Panics, outcomes, effects *)

Inductive panic :=
| NilDereference                    (* invalid memory address or nil pointer dereference *)
| SliceBounds (lo len : nat).       (* slice bounds out of range [lo:len] *)

Inductive outcome (A : Type) :=
| Done (a : A)
| Panic (p : panic).
Arguments Done {A} a.
Arguments Panic {A} p.

Inductive Event :=
| EvStat (path : string)                          (* os.Stat *)
| EvOpen (path : string)                          (* os.Open *)
| EvFileStat (name : string)                      (* f.Stat() of an os.File *)
| EvFileClose (name : string)                     (* f.Close() of an os.File *)
| EvDial (network address : string) (timeout : Duration)
| EvSleep (d : Duration)                          (* time.Sleep *)
| EvSetDeadline (d : Duration)                    (* conn.SetDeadline(time.Now().Add(d)) *)
| EvStartRequest (id : nat)
| EvEndRequest (id : nat)
| EvStartResponse (id : nat)
| EvEndResponse (id : nat)
| EvPrintfLine (line : string)                    (* tc.PrintfLine: the line, CRLF added on the wire *)
| EvReadLine                                      (* tc.ReadLine *)
| EvCopy (payload : string)                       (* io.Copy(tc.Writer.W, i) *)
| EvFlush                                         (* tc.W.Flush *)
| EvClose.                                        (* tc.Close *)

(** Events on the socket, and among them the writes. *)
Definition is_network (e : Event) : bool :=
  match e with
  | EvStat _ | EvOpen _ | EvFileStat _ | EvFileClose _ | EvSleep _ => false
  | _ => true
  end.

Definition is_write (e : Event) : bool :=
  match e with
  | EvPrintfLine _ | EvCopy _ => true
  | _ => false
  end.

Definition is_payload (e : Event) : bool :=
  match e with
  | EvCopy _ => true
  | _ => false
  end.

Definition conn_writes (t : list Event) : list Event := filter is_write t.

(** The environment: what the world answers.  [dial_of k] is the outcome
    of the [k]-th call of [Dial] (counted from 0), [write_of k] of the
    [k]-th write on the connection ([PrintfLine] or [io.Copy], [None] for
    success; for [io.Copy] it also covers a failing read of the source),
    [line_of k] of the [k]-th [ReadLine]. *)
Record Env := {
  stat_of : string -> result FileInfo;
  open_of : string -> result File;
  dial_of : nat -> result Conn;
  write_of : nat -> option sys_error;
  line_of : nat -> result string
}.

Record State := {
  ndial : nat;
  nwrite : nat;
  nread : nat;
  trace : list Event
}.

Definition Go (A : Type) : Type := Env -> State -> outcome A * State.

Definition go_ret {A} (a : A) : Go A := fun _ s => (Done a, s).

Definition go_bind {A B} (m : Go A) (k : A -> Go B) : Go B :=
  fun env s =>
    match m env s with
    | (Done a, s') => k a env s'
    | (Panic p, s') => (Panic p, s')
    end.

#[export] Instance Monad_Go : Monad Go :=
  {| ret := @go_ret; bind := @go_bind |}.

Definition go_panic {A} (p : panic) : Go A := fun _ s => (Panic p, s).

Definition emit (e : Event) : Go unit :=
  fun _ s =>
    (Done tt, {| ndial := ndial s; nwrite := nwrite s; nread := nread s;
                 trace := trace s ++ [e] |}).

(** [defer f(); body]: the deferred call runs when [body] returns, and
    also when it panics; the panic then goes on. *)
Definition defer_ {A} (cleanup : Go unit) (body : Go A) : Go A :=
  fun env s =>
    match body env s with
    | (Done a, s') =>
        match cleanup env s' with
        | (Done _, s'') => (Done a, s'')
        | (Panic p, s'') => (Panic p, s'')
        end
    | (Panic p, s') => (Panic p, snd (cleanup env s'))
    end.

(** ** The calls into the standard library *)

Definition val_of {A} (r : result A) : option A :=
  match r with
  | Ok a => Some a
  | Err _ => None
  end.

Definition err_of {A} (r : result A) : option error :=
  match r with
  | Ok _ => None
  | Err e => Some (Sys e)
  end.

Definition os_Stat (p : string) : Go (result FileInfo) :=
  emit (EvStat p) ;;
  fun env s => (Done (stat_of env p), s).

Definition os_Open (p : string) : Go (result File) :=
  emit (EvOpen p) ;;
  fun env s => (Done (open_of env p), s).

(** [stat.IsDir()] on an interface value that may be nil. *)
Definition FileInfo_IsDir (stat : option FileInfo) : Go bool :=
  match stat with
  | Some fi => ret (IsDir fi)
  | None => go_panic NilDereference
  end.

Definition File_Stat (f : File) : Go (result FileInfo) :=
  emit (EvFileStat (file_name f)) ;;
  ret (file_stat f).

Definition File_Close (f : File) : Go unit := emit (EvFileClose (file_name f)).

Definition time_Sleep (d : Duration) : Go unit := emit (EvSleep d).

(** [d.Dial(network, address)] with [d.Timeout = timeout]. *)
Definition Dialer_Dial (timeout : Duration) (network address : string)
  : Go (result Conn) :=
  emit (EvDial network address timeout) ;;
  fun env s =>
    (Done (dial_of env (ndial s)),
     {| ndial := S (ndial s); nwrite := nwrite s; nread := nread s;
        trace := trace s |}).

(** A method called on a [net.Conn] interface value that may be nil. *)
Definition on_conn {A} (conn : option Conn) (k : Go A) : Go A :=
  match conn with
  | Some _ => k
  | None => go_panic NilDereference
  end.

Definition conn_SetDeadline (conn : option Conn) (d : Duration) : Go unit :=
  on_conn conn (emit (EvSetDeadline d)).

Definition next_write : Go (option error) :=
  fun env s =>
    (Done (option_map Sys (write_of env (nwrite s))),
     {| ndial := ndial s; nwrite := S (nwrite s); nread := nread s;
        trace := trace s |}).

(** [tc.PrintfLine(format, args...)], [line] being the formatted text. *)
Definition tc_PrintfLine (conn : option Conn) (line : string) : Go (option error) :=
  on_conn conn (emit (EvPrintfLine line) ;; next_write).

Definition tc_ReadLine (conn : option Conn) : Go (result string) :=
  on_conn conn
    (emit EvReadLine ;;
     fun env s =>
       (Done (line_of env (nread s)),
        {| ndial := ndial s; nwrite := nwrite s; nread := S (nread s);
           trace := trace s |})).

(** [io.Copy(tc.Writer.W, i)]: the error alone is looked at. *)
Definition io_Copy (conn : option Conn) (i : Reader) : Go (option error) :=
  on_conn conn (emit (EvCopy (reader_data i)) ;; next_write).

Definition tc_Flush (conn : option Conn) : Go unit := on_conn conn (emit EvFlush).
Definition tc_Close (conn : option Conn) : Go unit := on_conn conn (emit EvClose).

(** The request pipeline of a [textproto.Conn].  The connection is new, so
    [tc.Next()] is 0 and neither [StartRequest] nor [StartResponse] waits. *)
Definition tc_Next : Go nat := ret 0%nat.
Definition tc_StartRequest (id : nat) : Go unit := emit (EvStartRequest id).
Definition tc_EndRequest (id : nat) : Go unit := emit (EvEndRequest id).
Definition tc_StartResponse (id : nat) : Go unit := emit (EvStartResponse id).
Definition tc_EndResponse (id : nat) : Go unit := emit (EvEndResponse id).

(** [strings.HasPrefix(s, prefix)]. *)
Definition HasPrefix (s prefix : string) : bool := String.prefix prefix s.

(** [s[n:]]: panics when [n] exceeds the length. *)
Fixpoint drop_bytes (n : nat) (s : string) : string :=
  match n, s with
  | O, _ => s
  | S n', String _ s' => drop_bytes n' s'
  | S _, EmptyString => EmptyString
  end.

Definition slice_from (s : string) (n : nat) : Go string :=
  if (n <=? String.length s)%nat then ret (drop_bytes n s)
  else go_panic (SliceBounds n (String.length s)).

(** [%d] of an integer. *)
Definition fmt_d (z : Z) : string := NilZero.string_of_int (Z.to_int z).

(** ** The package *)

Definition defaultSleep : Duration := 1 * Second.
Definition defaultTimeout : Duration := 15 * Second.
Definition defaultCmdTimeout : Duration := 1 * Minute.
Definition defaultSock : string := "/var/lib/savdid/savdid.sock".
Definition unknownStatusErr : string := "Unknown status".
Definition noSizeErr : string := "The content length could not be determined".
Definition tcpDirErr : string := "Scanning directories not supported on a TCP connection".

(** The three format strings, each with its one [%s] filled in. *)
Definition invalidRespErr (l : string) : string :=
  "Invalid server response: " ++ l.
Definition unsupportedProtoErr (network : string) : string :=
  "Protocol: " ++ network ++ " is not supported".
Definition unixSockErr (address : string) : string :=
  "The unix socket: " ++ address ++ " does not exist".

Record Response := {
  Filename : string;
  Signature : string;
  Infected : bool;
  Raw : string
}.

(** [&Response{}]. *)
Definition Response_zero : Response :=
  {| Filename := ""; Signature := ""; Infected := false; Raw := "" |}.

Definition set_Filename (v : string) (r : Response) : Response :=
  {| Filename := v; Signature := Signature r; Infected := Infected r; Raw := Raw r |}.
Definition set_Signature (v : string) (r : Response) : Response :=
  {| Filename := Filename r; Signature := v; Infected := Infected r; Raw := Raw r |}.
Definition set_Infected (v : bool) (r : Response) : Response :=
  {| Filename := Filename r; Signature := Signature r; Infected := v; Raw := Raw r |}.
Definition set_Raw (v : string) (r : Response) : Response :=
  {| Filename := Filename r; Signature := Signature r; Infected := Infected r; Raw := v |}.

Record Client := {
  network : string;
  address : string;
  connTimeout : Duration;
  connRetries : Z;
  connSleep : Duration;
  cmdTimeout : Duration
}.

Definition SetConnTimeout (t : Duration) (c : Client) : Client :=
  {| network := network c; address := address c; connTimeout := t;
     connRetries := connRetries c; connSleep := connSleep c;
     cmdTimeout := cmdTimeout c |}.

Definition SetCmdTimeout (t : Duration) (c : Client) : Client :=
  {| network := network c; address := address c; connTimeout := connTimeout c;
     connRetries := connRetries c; connSleep := connSleep c;
     cmdTimeout := t |}.

Definition SetConnRetries (s : Z) (c : Client) : Client :=
  let s := if s <? 0 then 0 else s in
  {| network := network c; address := address c; connTimeout := connTimeout c;
     connRetries := s; connSleep := connSleep c;
     cmdTimeout := cmdTimeout c |}.

Definition SetConnSleep (s : Duration) (c : Client) : Client :=
  {| network := network c; address := address c; connTimeout := connTimeout c;
     connRetries := connRetries c; connSleep := s;
     cmdTimeout := cmdTimeout c |}.

(** The loop of [dial], [n] iterations being left and [last] holding
    [conn, err] as the previous iteration set them:
    [for i := 0; i <= c.connRetries; i++]. *)
Fixpoint dial_loop (c : Client) (timeout : Duration) (n : nat)
    (last : option Conn * option error) : Go (option Conn * option error) :=
  match n with
  | O => ret last
  | S n' =>
      r <- Dialer_Dial timeout (network c) (address c) ;;
      if isTimeout (err_of r)
      then time_Sleep (connSleep c) ;;
           dial_loop c timeout n' (val_of r, err_of r)
      else ret (val_of r, err_of r)
  end.

(** [i] runs from 0 to [c.connRetries]: [connRetries + 1] iterations at
    most, none when [connRetries] is negative.  (For
    [connRetries = maxInt] the Go counter would wrap around; the theorems
    about the loop leave that value out.) *)
Definition dial (c : Client) : Go (option Conn * option error) :=
  let timeout := if 0 <? connTimeout c then connTimeout c else 0 in
  dial_loop c timeout (Z.to_nat (connRetries c + 1)) (None, None).

Definition processResponse (c : Client) (tc : option Conn) (p : string)
  : Go (option Response * option error) :=
  rl <- tc_ReadLine tc ;;
  match rl with
  | Err e => ret (None, Some (Sys e))
  | Ok l =>
      let r := Response_zero in
      let r := if (p =? "")%string then set_Filename "stream" r else set_Filename p r in
      if HasPrefix l "-1" then
        ret (Some r, Some (Errorf unknownStatusErr))
      else if HasPrefix l "1" || HasPrefix l "0" then
        let r := set_Raw l r in
        if HasPrefix l "1" then
          sig <- slice_from l 2 ;;
          let r := set_Signature sig r in
          let r := set_Infected true r in
          ret (Some r, None)
        else ret (Some r, None)
      else
        ret (Some r, Some (Errorf (invalidRespErr l)))
  end.

(** The type switch of [readerCmd]: the content length, or the error the
    function returns with. *)
Definition clen_of (i : Reader) : Go (Z + error) :=
  match i with
  | BytesBuffer v => ret (inl (Z.of_nat (String.length v)))
  | BytesReader v => ret (inl (Z.of_nat (String.length v)))
  | StringsReader v => ret (inl (Z.of_nat (String.length v)))
  | OsFile v =>
      st <- File_Stat v ;;
      match st with
      | Err e => ret (inr (Sys e))
      | Ok stat => ret (inl (Size stat))
      end
  | OtherReader _ => ret (inr (Errorf noSizeErr))
  end.

Definition readerCmd (c : Client) (i : Reader)
  : Go (option Response * option error) :=
  d <- dial c ;;
  let '(conn, err) := d in
  match err with
  | Some e => ret (None, Some e)
  | None =>
      let tc := conn in
      defer_ (tc_Close tc)
        (cl <- clen_of i ;;
         match cl with
         | inr e => ret (None, Some e)
         | inl clen =>
             id <- tc_Next ;;
             tc_StartRequest id ;;
             conn_SetDeadline conn (cmdTimeout c) ;;
             werr <- tc_PrintfLine tc ("stream/" ++ fmt_d clen) ;;
             match werr with
             | Some e => tc_EndRequest id ;; ret (None, Some e)
             | None =>
                 conn_SetDeadline conn (cmdTimeout c) ;;
                 rl <- tc_ReadLine tc ;;
                 match rl with
                 | Err e => tc_EndRequest id ;; ret (None, Some (Sys e))
                 | Ok l =>
                     if negb (l =? "OK")%string then
                       tc_EndRequest id ;;
                       ret (None, Some (Errorf (invalidRespErr l)))
                     else
                       conn_SetDeadline conn (cmdTimeout c) ;;
                       cerr <- io_Copy tc i ;;
                       match cerr with
                       | Some e => tc_EndRequest id ;; ret (None, Some e)
                       | None =>
                           tc_Flush tc ;;
                           tc_EndRequest id ;;
                           tc_StartResponse id ;;
                           defer_ (tc_EndResponse id)
                             (conn_SetDeadline conn (cmdTimeout c) ;;
                              processResponse c tc "")
                       end
                 end
             end
         end)
  end.

Definition is_unix (network : string) : bool :=
  (network =? "unix")%string || (network =? "unixpacket")%string.

Definition fileCmd (c : Client) (p : string)
  : Go (option Response * option error) :=
  st <- os_Stat p ;;
  let stat := val_of st in
  let err := err_of st in
  if os_IsNotExist err then ret (None, err)
  else if negb (is_unix (network c)) then
    (* isTCP *)
    isdir <- FileInfo_IsDir stat ;;
    if isdir then ret (None, Some (Errorf tcpDirErr))
    else
      fo <- os_Open p ;;
      match fo with
      | Err e => ret (None, Some (Sys e))
      | Ok f => defer_ (File_Close f) (readerCmd c (OsFile f))
      end
  else
    d <- dial c ;;
    let '(conn, err) := d in
    match err with
    | Some e => ret (None, Some e)
    | None =>
        let tc := conn in
        defer_ (tc_Close tc)
          (id <- tc_Next ;;
           tc_StartRequest id ;;
           conn_SetDeadline conn (cmdTimeout c) ;;
           werr <- tc_PrintfLine tc p ;;
           match werr with
           | Some e => tc_EndRequest id ;; ret (None, Some e)
           | None =>
               tc_EndRequest id ;;
               tc_StartResponse id ;;
               defer_ (tc_EndResponse id)
                 (conn_SetDeadline conn (cmdTimeout c) ;;
                  processResponse c tc p)
           end)
    end.

Definition Scan (c : Client) (p : string) : Go (option Response * option error) :=
  fileCmd c p.

Definition ScanReader (c : Client) (i : Reader) : Go (option Response * option error) :=
  readerCmd c i.

Definition supported (network : string) : bool :=
  (network =? "unix")%string || (network =? "unixpacket")%string || (network =? "tcp")%string
  || (network =? "tcp4")%string || (network =? "tcp6")%string.

Definition NewClient (network address : string) : Go (option Client * option error) :=
  let '(network, address) :=
    if (network =? "")%string && (address =? "")%string then ("unix", defaultSock)
    else (network, address) in
  let c := {| network := network; address := address;
              connTimeout := defaultTimeout; connRetries := 0;
              connSleep := defaultSleep; cmdTimeout := defaultCmdTimeout |} in
  if negb (supported network) then
    ret (None, Some (Errorf (unsupportedProtoErr network)))
  else if is_unix network then
    st <- os_Stat address ;;
    if os_IsNotExist (err_of st) then
      ret (None, Some (Errorf (unixSockErr address)))
    else ret (Some c, err_of st)
  else ret (Some c, None).

(** ** The earlier revision

    The repository also holds an earlier revision of [sophie.go].  It has
    the same [dial], the same type switch and the same decoding of the
    lines that begin with "-1", "0" and "1", but [processResponse] has no
    final [else], [NewClient] leaves [cmdTimeout] at zero (and looks for
    the socket before it looks at the protocol), and the deadline is set
    once, after the dial, when [cmdTimeout > 0].  The development follows
    the later revision, which is the one the specification describes; the
    two functions that differ in what they return are kept here. *)
Module Earlier.

Definition processResponse (c : Client) (tc : option Conn) (p : string)
  : Go (option Response * option error) :=
  rl <- tc_ReadLine tc ;;
  match rl with
  | Err e => ret (None, Some (Sys e))
  | Ok l =>
      let r := Response_zero in
      let r := if (p =? "")%string then set_Filename "stream" r else set_Filename p r in
      if HasPrefix l "-1" then
        ret (Some r, Some (Errorf "Unknown status"))
      else if HasPrefix l "1" || HasPrefix l "0" then
        let r := set_Raw l r in
        if HasPrefix l "1" then
          sig <- slice_from l 2 ;;
          let r := set_Signature sig r in
          let r := set_Infected true r in
          ret (Some r, None)
        else ret (Some r, None)
      else
        ret (Some r, None)
  end.

Definition NewClient (network address : string) : Go (option Client * option error) :=
  let '(network, address) :=
    if (network =? "")%string && (address =? "")%string
    then ("unix", "/var/lib/savdid/savdid.sock")
    else (network, address) in
  let c := {| network := network; address := address;
              connTimeout := defaultTimeout; connRetries := 0;
              connSleep := defaultSleep; cmdTimeout := 0 |} in
  let rest (err : option error) : Go (option Client * option error) :=
    if negb (supported network) then
      ret (None, Some (Errorf (unsupportedProtoErr network)))
    else ret (Some c, err) in
  if is_unix network then
    st <- os_Stat address ;;
    if os_IsNotExist (err_of st) then
      ret (None, Some (Errorf (unixSockErr address)))
    else rest (err_of st)
  else rest None.

End Earlier.

(** ** Running a computation *)

Definition state0 : State := {| ndial := 0%nat; nwrite := 0%nat; nread := 0%nat; trace := [] |}.

Definition run {A} (m : Go A) (env : Env) (s : State) : outcome A * State := m env s.

(** ** Concrete environments

    A scripted world: every path is a regular file of 68 bytes unless
    listed, the dials, writes and reads answer from the given lists, after
    which a dial is refused, a write succeeds and a read meets the end of
    the stream. *)

Definition refused : sys_error := NetError false "connect: connection refused".
Definition timed_out : sys_error := NetError true "i/o timeout".

Definition scripted (stats : list (string * result FileInfo))
    (dials : list (result Conn)) (writes : list (option sys_error))
    (lines : list (result string)) : Env :=
  {| stat_of := fun p =>
       match find (fun kv => (fst kv =? p)%string) stats with
       | Some kv => snd kv
       | None => Ok {| IsDir := false; Size := 68 |}
       end;
     open_of := fun p =>
       match find (fun kv => (fst kv =? p)%string) stats with
       | Some (_, Err e) => Err e
       | Some (_, Ok fi) => Ok {| file_name := p; file_stat := Ok fi; file_data := "" |}
       | None => Ok {| file_name := p; file_stat := Ok {| IsDir := false; Size := 68 |};
                       file_data := "X5O!P%@AP[4\PZX54(P^)7CC)7}$EICAR-STANDARD-ANTIVIRUS-TEST-FILE!$H+H*" |}
       end;
     dial_of := fun k => nth k dials (Err refused);
     write_of := fun k => nth k writes None;
     line_of := fun k => nth k lines (Err EOF) |}.

Definition conn0 : Conn := {| conn_id := 0 |}.

Definition tcpClient : Client :=
  {| network := "tcp"; address := "127.1.1.1:4010";
     connTimeout := defaultTimeout; connRetries := 0;
     connSleep := defaultSleep; cmdTimeout := defaultCmdTimeout |}.

Definition unixClient : Client :=
  {| network := "unix"; address := defaultSock;
     connTimeout := defaultTimeout; connRetries := 0;
     connSleep := defaultSleep; cmdTimeout := defaultCmdTimeout |}.

(** The state once one more line has been read. *)
Definition after_read (s : State) : State :=
  {| ndial := ndial s; nwrite := nwrite s; nread := S (nread s);
     trace := trace s ++ [EvReadLine] |}.

(** The sentinel that stands for the file name of a stream. *)
Definition filename_of (p : string) : string :=
  if (p =? "")%string then "stream" else p.

(** Environments for the examples: one connection on which the daemon
    answers a single status line. *)
Definition answering (l : string) : Env := scripted [] [Ok conn0] [] [Ok l].

(** The state after one attempt of [dial] that timed out (the dial, then
    the sleep), after [k] of them, and after one attempt that did not. *)
Definition round (c : Client) (timeout : Duration) (s : State) : State :=
  {| ndial := S (ndial s); nwrite := nwrite s; nread := nread s;
     trace := (trace s ++ [EvDial (network c) (address c) timeout])
              ++ [EvSleep (connSleep c)] |}.

Fixpoint after_rounds (c : Client) (timeout : Duration) (k : nat) (s : State) : State :=
  match k with
  | O => s
  | S k' => after_rounds c timeout k' (round c timeout s)
  end.

Definition after_dial (c : Client) (timeout : Duration) (s : State) : State :=
  {| ndial := S (ndial s); nwrite := nwrite s; nread := nread s;
     trace := trace s ++ [EvDial (network c) (address c) timeout] |}.

(** [d.Timeout] as [dial] sets it. *)
Definition dial_timeout (c : Client) : Duration :=
  if 0 <? connTimeout c then connTimeout c else 0.

Definition is_dial (e : Event) : bool :=
  match e with
  | EvDial _ _ _ => true
  | _ => false
  end.

(** The number of dial attempts in a trace. *)
Definition attempts (t : list Event) : nat := List.length (filter is_dial t).

(** The state once [os.Stat(p)] has been called. *)
Definition after_stat (p : string) (s : State) : State :=
  {| ndial := ndial s; nwrite := nwrite s; nread := nread s;
     trace := trace s ++ [EvStat p] |}.

(** A client that retries twice, and a network on which the first two
    attempts time out. *)
Definition retrying : Client := SetConnRetries 2 tcpClient.
Definition flaky : Env := scripted [] [Err timed_out; Err timed_out; Ok conn0] [] [].

(** A directory, and a path that [os.Stat] may not look at. *)
Definition with_directory : Env :=
  scripted [("./examples/data", Ok {| IsDir := true; Size := 4096 |})] [Ok conn0] [] [].
Definition with_forbidden : Env :=
  scripted [("/root/private/mail", Err (PathError "stat" "/root/private/mail" EACCES))]
           [Ok conn0] [] [Ok "OK"; Ok "0"].

(** The first events of a stream request of [n] bytes: the request line
    "stream/n" under a fresh deadline. *)
Definition request_events (c : Client) (n : Z) : list Event :=
  [EvStartRequest 0; EvSetDeadline (cmdTimeout c);
   EvPrintfLine ("stream/" ++ fmt_d n)].

(** The state in which [readerCmd] returns when the daemon does not
    acknowledge the request line with "OK". *)
Definition after_rejection (c : Client) (n : Z) (s : State) : State :=
  {| ndial := ndial s; nwrite := S (nwrite s); nread := S (nread s);
     trace := trace s ++ request_events c n
              ++ [EvSetDeadline (cmdTimeout c); EvReadLine; EvEndRequest 0; EvClose] |}.

(** The state in which [readerCmd] returns when it cannot tell the length
    of its source: the connection is closed, nothing was sent. *)
Definition after_close (s : State) : State :=
  {| ndial := ndial s; nwrite := nwrite s; nread := nread s;
     trace := trace s ++ [EvClose] |}.

(** The sources whose length the type switch of [readerCmd] can tell. *)
Definition recognized (i : Reader) : bool :=
  match i with
  | OtherReader _ => false
  | _ => true
  end.

(** A network on which nobody listens. *)
Definition unreachable : Env := scripted [] [Err refused] [] [].

(** ** Vocabulary of the statements *)

(** [post m P]: every value that [m] returns satisfies [P] (a panic
    returns nothing). *)
Definition post {A} (m : Go A) (P : A -> Prop) : Prop :=
  forall env s a s', m env s = (Done a, s') -> P a.

(** A response and an error as a scan returns them. *)
Definition Reply : Type := option Response * option error.

(** A successful reply holds a response that satisfies [P]. *)
Definition success (P : Response -> Prop) (x : Reply) : Prop :=
  forall r, x = (Some r, None) -> P r.

(** The invariant of a decoded response. *)
Definition signature_invariant (r : Response) : Prop :=
  Signature r <> "" <-> Infected r = true /\ (2 < String.length (Raw r))%nat.

(** An error of the environment, or none: not one that the package built
    with [fmt.Errorf]. *)
Definition no_errorf (e : option error) : Prop :=
  forall msg, e <> Some (Errorf msg).

(** A reply that does not carry the error of [noSizeErr]. *)
Definition length_known (x : Reply) : Prop :=
  snd x <> Some (Errorf noSizeErr).

(** Events that neither dialling nor finding the length of the source
    produces. *)
Definition on_connection (f : Event -> bool) : Prop :=
  (forall n a t, f (EvDial n a t) = false)
  /\ (forall d, f (EvSleep d) = false)
  /\ (forall n, f (EvFileStat n) = false).

(** The reply of the daemon to the EICAR test file. *)
Definition eicar_reply : Response :=
  {| Filename := "stream"; Signature := "EICAR-AV-Test"; Infected := true;
     Raw := "1:EICAR-AV-Test" |}.

(** ** Vocabulary of the further statements *)

(** A call of one of the four setters, and a client after a list of such
    calls. *)
Inductive Setter :=
| CallSetConnTimeout (t : Duration)
| CallSetCmdTimeout (t : Duration)
| CallSetConnRetries (n : Z)
| CallSetConnSleep (d : Duration).

Definition call (c : Client) (f : Setter) : Client :=
  match f with
  | CallSetConnTimeout t => SetConnTimeout t c
  | CallSetCmdTimeout t => SetCmdTimeout t c
  | CallSetConnRetries n => SetConnRetries n c
  | CallSetConnSleep d => SetConnSleep d c
  end.

Definition configure (c : Client) (fs : list Setter) : Client :=
  fold_left call fs c.

(** [emits P m]: the events that [m] adds to the trace all satisfy [P],
    whatever the environment answers and however [m] ends. *)
Definition emits {A} (P : Event -> Prop) (m : Go A) : Prop :=
  forall env s,
    exists evs, trace (snd (m env s)) = (trace s ++ evs)%list /\ Forall P evs.

(** [panics m Q]: every panic of [m] satisfies [Q]. *)
Definition panics {A} (m : Go A) (Q : panic -> Prop) : Prop :=
  forall env s q s', m env s = (Panic q, s') -> Q q.

(** [dials_at_most n m]: [m] adds at most [n] dial attempts to the trace. *)
Definition dials_at_most {A} (n : nat) (m : Go A) : Prop :=
  forall env s, (attempts (trace (snd (m env s))) <= attempts (trace s) + n)%nat.

(** What [dial] hands back when it ran at least once: a connection or an
    error of the environment, never both and never neither. *)
Definition one_of (d : option Conn * option error) : Prop :=
  (exists conn, d = (Some conn, None)) \/ (exists e, d = (None, Some (Sys e))).

(** Reads and writes on the connection. *)
Definition is_io (e : Event) : bool :=
  match e with
  | EvPrintfLine _ | EvReadLine | EvCopy _ => true
  | _ => false
  end.

(** [armed d prev evs]: in [evs], which follows the event [prev], every
    read and every write comes right after a [SetDeadline] of [d]. *)
Fixpoint armed (d : Duration) (prev : option Event) (evs : list Event) : Prop :=
  match evs with
  | [] => True
  | e :: rest =>
      (is_io e = true -> prev = Some (EvSetDeadline d)) /\ armed d (Some e) rest
  end.

Definition is_close (e : Event) : bool :=
  match e with
  | EvClose => true
  | _ => false
  end.

(** Events of the file system. *)
Definition is_file (e : Event) : bool :=
  match e with
  | EvStat _ | EvOpen _ | EvFileStat _ | EvFileClose _ => true
  | _ => false
  end.

(** The state once [os.Open(p)] has been called. *)
Definition after_open (p : string) (s : State) : State :=
  {| ndial := ndial s; nwrite := nwrite s; nread := nread s;
     trace := trace s ++ [EvOpen p] |}.

(** A state with some more events at the end of its trace. *)
Definition with_events (evs : list Event) (s : State) : State :=
  {| ndial := ndial s; nwrite := nwrite s; nread := nread s;
     trace := trace s ++ evs |}.

(** The state once a line has been written (or its writing has failed),
    [evs] being the events since [s]. *)
Definition after_write (evs : list Event) (s : State) : State :=
  {| ndial := ndial s; nwrite := S (nwrite s); nread := nread s;
     trace := trace s ++ evs |}.

(** The events of a path request up to the reading of the status line. *)
Definition path_events (c : Client) (p : string) : list Event :=
  [EvStartRequest 0; EvSetDeadline (cmdTimeout c); EvPrintfLine p;
   EvEndRequest 0; EvStartResponse 0; EvSetDeadline (cmdTimeout c)].

(** The events of a stream request between the request line and the
    reading of the status line: the acknowledgement is read, the payload
    written and flushed. *)
Definition payload_events (c : Client) (i : Reader) : list Event :=
  [EvSetDeadline (cmdTimeout c); EvReadLine; EvSetDeadline (cmdTimeout c);
   EvCopy (reader_data i); EvFlush; EvEndRequest 0; EvStartResponse 0;
   EvSetDeadline (cmdTimeout c)].

(** The state of a stream request when the status line is about to be
    read. *)
Definition after_payload (c : Client) (i : Reader) (n : Z) (s : State) : State :=
  {| ndial := ndial s; nwrite := S (S (nwrite s)); nread := S (nread s);
     trace := trace s ++ request_events c n ++ payload_events c i |}.

(** A world in which every path is a regular file that may not be
    opened. *)
Definition unreadable : Env :=
  {| stat_of := fun _ => Ok {| IsDir := false; Size := 12 |};
     open_of := fun p => Err (PathError "open" p EACCES);
     dial_of := fun _ => Ok conn0;
     write_of := fun _ => None;
     line_of := fun _ => Err EOF |}.

(** An open file whose [Stat] fails. *)
Definition stale_file : File :=
  {| file_name := "/mnt/nfs/report.pdf";
     file_stat := Err (PathError "stat" "/mnt/nfs/report.pdf" EIO);
     file_data := "" |}.

(** The events of the dial, of the deadlines and of the request
    pipeline, as a scan of the client [c] produces them. *)
Definition session_event (c : Client) (e : Event) : Prop :=
  match e with
  | EvDial n a t => n = network c /\ a = address c /\ t = dial_timeout c
  | EvSleep d => d = connSleep c
  | EvSetDeadline d => d = cmdTimeout c
  | EvStartRequest n | EvEndRequest n | EvStartResponse n | EvEndResponse n =>
      n = 0%nat
  | EvReadLine | EvClose => True
  | _ => False
  end.

(** What a path request over a unix transport may do: stat the path,
    dial, and talk on the connection, the path being the only line it
    sends; it opens no file and copies no payload. *)
Definition unix_event (c : Client) (p : string) (e : Event) : Prop :=
  match e with
  | EvStat q => q = p
  | EvPrintfLine l => l = p
  | _ => session_event c e
  end.

(** What a stream request may do: dial and talk on the connection, every
    line it sends being "stream/" followed by a number and every payload
    the bytes of the source; of the file system it uses the [Stat] of the
    open file that is its source, and nothing else. *)
Definition stream_event (c : Client) (i : Reader) (e : Event) : Prop :=
  match e with
  | EvPrintfLine l => exists n, l = "stream/" ++ fmt_d n
  | EvCopy d => d = reader_data i
  | EvFlush => True
  | EvFileStat n => exists f, i = OsFile f /\ n = file_name f
  | _ => session_event c e
  end.

(** No dial. *)
Definition no_dial (e : Event) : Prop := is_dial e = false.

(** No closing of the connection. *)
Definition no_close (e : Event) : Prop := is_close e = false.

(** The length of a source as the specification means it, when it can be
    determined: the number of bytes not read yet of a buffer, of a bytes
    reader or of a strings reader, and for an open file the size that its
    [Stat] reports.  It is stated apart from the type switch of
    [readerCmd], to be compared with it. *)
Definition source_length (i : Reader) : option Z :=
  match i with
  | BytesBuffer unread => Some (Z.of_nat (String.length unread))
  | BytesReader unread => Some (Z.of_nat (String.length unread))
  | StringsReader unread => Some (Z.of_nat (String.length unread))
  | OsFile f =>
      match file_stat f with
      | Ok info => Some (Size info)
      | Err _ => None
      end
  | OtherReader _ => None
  end.

(** The state once the length of the source has been found: for an open
    file its [Stat] was called, for the other sources nothing happened. *)
Definition after_length (i : Reader) (s : State) : State :=
  match i with
  | OsFile f => with_events [EvFileStat (file_name f)] s
  | _ => s
  end.

(** Sources of nine bytes. *)
Definition nine_bytes : string := "X5O!P%@AP".

(** * Properties *)

(** ** Strings *)

Lemma HasPrefix_char (l : string) (ch : ascii) :
  HasPrefix l (String ch "") = true <-> exists t, l = String ch t.
Proof.
  unfold HasPrefix. destruct l as [|a l]; cbn [String.prefix].
  - split; [intros H; discriminate H | intros [t H]; discriminate H].
  - destruct (ascii_dec ch a) as [<-|Hne].
    + split; [intros _; now exists l | intros _; now destruct l].
    + split; [intros H; discriminate H | intros [t H]; congruence].
Qed.

Lemma HasPrefix_cons (a b : ascii) (l t : string) :
  HasPrefix (String a l) (String b t) = true -> a = b.
Proof.
  unfold HasPrefix. cbn [String.prefix].
  destruct (ascii_dec b a) as [<-|]; [reflexivity | intros H; discriminate H].
Qed.

Lemma HasPrefix_1_not_minus (l : string) :
  HasPrefix l "1" = true -> HasPrefix l "-1" = false.
Proof.
  intros H. apply HasPrefix_char in H as [t ->].
  destruct (HasPrefix (String "1" t) "-1") eqn:E; [|reflexivity].
  apply HasPrefix_cons in E. discriminate E.
Qed.

Lemma HasPrefix_1_not_0 (l : string) :
  HasPrefix l "1" = true -> HasPrefix l "0" = false.
Proof.
  intros H. apply HasPrefix_char in H as [t ->].
  destruct (HasPrefix (String "1" t) "0") eqn:E; [|reflexivity].
  apply HasPrefix_cons in E. discriminate E.
Qed.

Lemma HasPrefix_0_not_minus (l : string) :
  HasPrefix l "0" = true -> HasPrefix l "-1" = false.
Proof.
  intros H. apply HasPrefix_char in H as [t ->].
  destruct (HasPrefix (String "0" t) "-1") eqn:E; [|reflexivity].
  apply HasPrefix_cons in E. discriminate E.
Qed.

Lemma drop_bytes_length (n : nat) (s : string) :
  String.length (drop_bytes n s) = (String.length s - n)%nat.
Proof.
  revert s. induction n as [|n IH]; intros [|a s]; simpl; auto.
Qed.

(** Slicing splits the string: what [s[:n]] and [s[n:]] hold is [s]. *)
Lemma substring_drop_bytes (n : nat) (s : string) :
  (n <= String.length s)%nat -> s = substring 0 n s ++ drop_bytes n s.
Proof.
  revert s. induction n as [|n IH]; intros [|a s] H; simpl in *; try reflexivity.
  f_equal. apply IH. lia.
Qed.

(** ** Decoding the status line *)

Section Decoding.

Variables (c : Client) (conn : Conn) (p : string) (env : Env) (s : State).
Variable l : string.
Hypothesis Hline : line_of env (nread s) = Ok l.

Lemma processResponse_unknown_status :
  HasPrefix l "-1" = true ->
  processResponse c (Some conn) p env s =
    (Done (Some (set_Filename (filename_of p) Response_zero),
           Some (Errorf unknownStatusErr)),
     after_read s).
Proof.
  intros H. unfold processResponse, filename_of. cbn. rewrite Hline, H.
  destruct (p =? "")%string; reflexivity.
Qed.

Lemma processResponse_clean :
  HasPrefix l "0" = true ->
  processResponse c (Some conn) p env s =
    (Done (Some {| Filename := filename_of p; Signature := "";
                   Infected := false; Raw := l |}, None),
     after_read s).
Proof.
  intros H. unfold processResponse, filename_of. cbn. rewrite Hline.
  assert (H1 : HasPrefix l "1" = false).
  { destruct (HasPrefix l "1") eqn:E; [|reflexivity].
    apply HasPrefix_1_not_0 in E. congruence. }
  rewrite (HasPrefix_0_not_minus _ H), H1, H. cbn.
  destruct (p =? "")%string; reflexivity.
Qed.

Lemma processResponse_infected :
  HasPrefix l "1" = true -> (2 <= String.length l)%nat ->
  processResponse c (Some conn) p env s =
    (Done (Some {| Filename := filename_of p; Signature := drop_bytes 2 l;
                   Infected := true; Raw := l |}, None),
     after_read s).
Proof.
  intros H Hlen. unfold processResponse, filename_of. cbn. rewrite Hline.
  rewrite (HasPrefix_1_not_minus _ H), H. cbn.
  unfold slice_from.
  destruct (Nat.leb_spec 2 (String.length l)) as [_|Hlt]; [|lia].
  cbn. destruct (p =? "")%string; reflexivity.
Qed.

Lemma processResponse_short :
  HasPrefix l "1" = true -> (String.length l < 2)%nat ->
  processResponse c (Some conn) p env s =
    (Panic (SliceBounds 2 (String.length l)), after_read s).
Proof.
  intros H Hlen. unfold processResponse. cbn. rewrite Hline.
  rewrite (HasPrefix_1_not_minus _ H), H. cbn.
  unfold slice_from.
  destruct (Nat.leb_spec 2 (String.length l)) as [Hle|_]; [lia|].
  reflexivity.
Qed.

Lemma processResponse_invalid :
  HasPrefix l "0" = false -> HasPrefix l "1" = false ->
  HasPrefix l "-1" = false ->
  processResponse c (Some conn) p env s =
    (Done (Some (set_Filename (filename_of p) Response_zero),
           Some (Errorf ("Invalid server response: " ++ l))),
     after_read s).
Proof.
  intros H0 H1 Hm. unfold processResponse, filename_of. cbn.
  rewrite Hline, Hm, H1, H0. cbn.
  destruct (p =? "")%string; reflexivity.
Qed.

End Decoding.

(** C1 (amended).  For every status line that begins with "1" and holds at
    least two bytes, [processResponse] succeeds with [Infected = true],
    [Raw] the line and [Signature] the line without its first two bytes
    (the status digit and the byte that follows it); the line
    "1:EICAR-AV-Test" so gives the signature "EICAR-AV-Test". *)
Theorem processResponse_infected_signature
    (c : Client) (conn : Conn) (p : string) (env : Env) (s : State) (l : string) :
  line_of env (nread s) = Ok l ->
  HasPrefix l "1" = true ->
  (2 <= String.length l)%nat ->
  processResponse c (Some conn) p env s =
    (Done (Some {| Filename := filename_of p; Signature := drop_bytes 2 l;
                   Infected := true; Raw := l |}, None),
     after_read s)
  /\ l = substring 0 2 l ++ drop_bytes 2 l
  /\ (l = "1:EICAR-AV-Test" -> drop_bytes 2 l = "EICAR-AV-Test").
Proof.
  intros Hline H1 Hlen. split; [|split].
  - now apply processResponse_infected.
  - now apply substring_drop_bytes.
  - intros ->. reflexivity.
Qed.

Lemma processResponse_infected_signature_witness :
  run (processResponse tcpClient (Some conn0) "" ) (answering "1:EICAR-AV-Test") state0 =
    (Done (Some {| Filename := "stream"; Signature := "EICAR-AV-Test";
                   Infected := true; Raw := "1:EICAR-AV-Test" |}, None),
     after_read state0).
Proof.
  refine (proj1 (processResponse_infected_signature tcpClient conn0 ""
                   (answering "1:EICAR-AV-Test") state0 "1:EICAR-AV-Test" _ _ _)).
  - reflexivity.
  - reflexivity.
  - simpl. lia.
Defined.

(** C1, as the specification words it, fails: for the line
    "1EICAR-AV-Test" the two bytes taken off are "1E", and the signature
    is "ICAR-AV-Test". *)
Lemma processResponse_no_delimiter_signature :
  run (processResponse tcpClient (Some conn0) "") (answering "1EICAR-AV-Test") state0 =
    (Done (Some {| Filename := "stream"; Signature := "ICAR-AV-Test";
                   Infected := true; Raw := "1EICAR-AV-Test" |}, None),
     after_read state0)
  /\ "ICAR-AV-Test" <> "EICAR-AV-Test".
Proof. split; [reflexivity | discriminate]. Qed.

(** C2.  A line that begins with none of "0", "1" and "-1" makes the
    decoding fail with the error "Invalid server response: " followed by
    the line. *)
Theorem processResponse_unexpected_line
    (c : Client) (conn : Conn) (p : string) (env : Env) (s : State) (l : string) :
  line_of env (nread s) = Ok l ->
  HasPrefix l "0" = false ->
  HasPrefix l "1" = false ->
  HasPrefix l "-1" = false ->
  processResponse c (Some conn) p env s =
    (Done (Some (set_Filename (filename_of p) Response_zero),
           Some (Errorf (invalidRespErr l))),
     after_read s)
  /\ invalidRespErr l = "Invalid server response: " ++ l.
Proof.
  intros Hline H0 H1 Hm. split; [|reflexivity].
  now apply processResponse_invalid.
Qed.

Lemma processResponse_unexpected_line_witness :
  run (processResponse unixClient (Some conn0) "/tmp/f") (answering "REJ 4") state0 =
    (Done (Some {| Filename := "/tmp/f"; Signature := ""; Infected := false; Raw := "" |},
           Some (Errorf "Invalid server response: REJ 4")),
     after_read state0).
Proof.
  refine (proj1 (processResponse_unexpected_line unixClient conn0 "/tmp/f"
                   (answering "REJ 4") state0 "REJ 4" _ _ _ _)); reflexivity.
Defined.

(** C9: the line "1" alone.  [l[2:]] is out of range for a string of one
    byte, and the decoding panics. *)
Theorem processResponse_status_only_panics :
  run (processResponse tcpClient (Some conn0) "") (answering "1") state0 =
    (Panic (SliceBounds 2 1), after_read state0).
Proof. reflexivity. Qed.

(** ** What a computation can return

    The rules for [post] follow the shape of the code. *)

Lemma post_ret {A} (a : A) (P : A -> Prop) : P a -> post (ret a) P.
Proof.
  intros H env s a' s' E. cbn in E. unfold go_ret in E.
  inversion E; subst. exact H.
Qed.

Lemma post_panic {A} (p : panic) (P : A -> Prop) : post (go_panic p) P.
Proof. intros env s a s' E. discriminate E. Qed.

Lemma post_bind {A B} (m : Go A) (k : A -> Go B) (Q : A -> Prop) (P : B -> Prop) :
  post m Q -> (forall a, Q a -> post (k a) P) -> post (bind m k) P.
Proof.
  intros Hm Hk env s b s' E. cbn in E. unfold go_bind in E.
  destruct (m env s) as [[a|q] s1] eqn:E1; [|discriminate E].
  exact (Hk a (Hm _ _ _ _ E1) _ _ _ _ E).
Qed.

Lemma post_any {A} (m : Go A) : post m (fun _ => True).
Proof. intros env s a s' _. exact I. Qed.

Lemma post_seq {A B} (m : Go A) (k : A -> Go B) (P : B -> Prop) :
  (forall a, post (k a) P) -> post (bind m k) P.
Proof. intros Hk. apply post_bind with (Q := fun _ => True); auto using post_any. Qed.

Lemma post_defer {A} (cleanup : Go unit) (body : Go A) (P : A -> Prop) :
  post body P -> post (defer_ cleanup body) P.
Proof.
  intros Hb env s a s' E. unfold defer_ in E.
  destruct (body env s) as [[a1|q] s1] eqn:E1; [|discriminate E].
  destruct (cleanup env s1) as [[u|q] s2]; [|discriminate E].
  inversion E; subst. exact (Hb _ _ _ _ E1).
Qed.

Lemma post_on_conn {A} (conn : option Conn) (k : Go A) (P : A -> Prop) :
  post k P -> post (on_conn conn k) P.
Proof. destruct conn; [trivial | intros _; apply post_panic]. Qed.

Lemma success_error (P : Response -> Prop) (r : option Response) (e : error) :
  success P (r, Some e).
Proof. intros r' E. discriminate E. Qed.

Lemma success_none (P : Response -> Prop) (e : option error) :
  success P (None, e).
Proof. intros r' E. discriminate E. Qed.

#[local] Hint Resolve success_error success_none : core.

Lemma drop_bytes_nonempty (n : nat) (l : string) :
  drop_bytes n l <> "" <-> (n < String.length l)%nat.
Proof.
  pose proof (drop_bytes_length n l) as H. split.
  - intros Hne. destruct (drop_bytes n l) eqn:E; [congruence|]. simpl in H. lia.
  - intros Hlt E. rewrite E in H. simpl in H. lia.
Qed.

Lemma processResponse_invariant (c : Client) (tc : option Conn) (p : string) :
  post (processResponse c tc p) (success signature_invariant).
Proof.
  unfold processResponse, tc_ReadLine.
  apply post_bind with (Q := fun _ => True); [apply post_any|].
  intros [l|e] _; [|apply post_ret; auto].
  destruct (HasPrefix l "-1"); [apply post_ret; auto|].
  destruct (HasPrefix l "1") eqn:H1; cbn [orb].
  - unfold slice_from.
    destruct (Nat.leb_spec 2 (String.length l)) as [Hle|Hlt].
    + cbn. apply post_ret. intros r E. inversion E; subst; clear E.
      pose proof (drop_bytes_nonempty 2 l) as Hd.
      unfold signature_invariant. cbn in Hd |- *. intuition.
    + intros env s a s' E. discriminate E.
  - destruct (HasPrefix l "0"); apply post_ret; auto.
    intros r E. inversion E; subst; clear E.
    unfold signature_invariant. destruct (p =? "")%string; cbn.
    all: split; [congruence | intros [E _]; discriminate E].
Qed.

Ltac post_step :=
  first
    [ apply post_ret; solve [auto]
    | apply post_panic
    | apply post_defer
    | apply post_on_conn
    | apply post_seq; intros ?
    | match goal with
      | |- post (match ?x with _ => _ end) _ => destruct x
      end ].

Lemma readerCmd_invariant (c : Client) (i : Reader) :
  post (readerCmd c i) (success signature_invariant).
Proof.
  unfold readerCmd.
  repeat first [ apply processResponse_invariant | post_step ].
Qed.

Lemma fileCmd_invariant (c : Client) (p : string) :
  post (fileCmd c p) (success signature_invariant).
Proof.
  unfold fileCmd.
  repeat first [ apply processResponse_invariant | apply readerCmd_invariant
               | post_step ].
Qed.

(** C3 (amended).  In every response of a successful decode, whichever
    scan operation it comes from, the signature is non-empty exactly when
    the response is marked infected and the status line holds more than
    two bytes; in particular a non-empty signature implies [Infected]. *)
Theorem scan_signature_invariant
    (c : Client) (env : Env) (s : State) (r : Response) (s' : State) :
  (exists tc p, processResponse c tc p env s = (Done (Some r, None), s')) \/
  (exists p, Scan c p env s = (Done (Some r, None), s')) \/
  (exists i, ScanReader c i env s = (Done (Some r, None), s')) ->
  (Signature r <> "" <-> Infected r = true /\ (2 < String.length (Raw r))%nat)
  /\ (Signature r <> "" -> Infected r = true).
Proof.
  intros H.
  assert (Hinv : signature_invariant r).
  { destruct H as [(tc & p & E) | [(p & E) | (i & E)]].
    - exact (processResponse_invariant c tc p _ _ _ _ E r eq_refl).
    - exact (fileCmd_invariant c p _ _ _ _ E r eq_refl).
    - exact (readerCmd_invariant c i _ _ _ _ E r eq_refl). }
  split; [exact Hinv | intros Hs; apply Hinv in Hs; tauto].
Qed.

Lemma scan_signature_invariant_witness :
  (Signature eicar_reply <> "" <->
     Infected eicar_reply = true /\ (2 < String.length (Raw eicar_reply))%nat)
  /\ (Signature eicar_reply <> "" -> Infected eicar_reply = true).
Proof.
  apply (scan_signature_invariant tcpClient
           (scripted [] [Ok conn0] [] [Ok "OK"; Ok "1:EICAR-AV-Test"]) state0
           eicar_reply
           (snd (run (ScanReader tcpClient (BytesBuffer "X5O!"))
                   (scripted [] [Ok conn0] [] [Ok "OK"; Ok "1:EICAR-AV-Test"])
                   state0))).
  right. right. exists (BytesBuffer "X5O!"). vm_compute. reflexivity.
Defined.

(** C3, as the specification words it, fails: the status line "1:" is
    decoded with success into a response marked infected whose signature
    is empty. *)
Lemma infected_with_empty_signature :
  exists r,
    run (processResponse tcpClient (Some conn0) "") (answering "1:") state0 =
      (Done (Some r, None), after_read state0)
    /\ Infected r = true /\ Signature r = ""
    /\ ~ (Signature r <> "" <-> Infected r = true).
Proof.
  exists {| Filename := "stream"; Signature := ""; Infected := true; Raw := "1:" |}.
  split; [vm_compute; reflexivity|].
  split; [reflexivity|]. split; [reflexivity|].
  intros [_ H]. apply H; reflexivity.
Qed.

(** ** Construction *)

(** C4.  A client returned by [NewClient] has the default settings:
    connection timeout 15 s, command timeout 60 s, retry delay 1 s and no
    retry. *)
Theorem NewClient_defaults
    (network address : string) (env : Env) (s : State)
    (c : Client) (err : option error) (s' : State) :
  NewClient network address env s = (Done (Some c, err), s') ->
  connTimeout c = 15 * Second /\ cmdTimeout c = 60 * Second
  /\ connSleep c = 1 * Second /\ connRetries c = 0.
Proof.
  unfold NewClient.
  destruct ((network =? "")%string && (address =? "")%string);
    match goal with
    | |- context [supported ?n] => destruct (supported n); cbn [negb]
    end;
    try (intros E; discriminate E).
  all: match goal with
       | |- context [is_unix ?n] => destruct (is_unix n)
       end.
  all: cbn; unfold go_bind, go_ret; cbn.
  all: try match goal with
       | |- context [os_IsNotExist ?e] => destruct (os_IsNotExist e)
       end.
  all: intros E; inversion E; subst; cbn; auto.
Qed.

Lemma NewClient_defaults_witness :
  connTimeout tcpClient = 15 * Second /\ cmdTimeout tcpClient = 60 * Second
  /\ connSleep tcpClient = 1 * Second /\ connRetries tcpClient = 0.
Proof.
  apply (NewClient_defaults "tcp" "127.1.1.1:4010" (scripted [] [] [] []) state0
           tcpClient None state0).
  vm_compute. reflexivity.
Defined.

(** ** The dial loop *)

Lemma after_rounds_ndial (c : Client) (t : Duration) (k : nat) (s : State) :
  ndial (after_rounds c t k s) = (ndial s + k)%nat.
Proof.
  revert s. induction k as [|k IH]; intros s; simpl.
  - lia.
  - rewrite IH. simpl. lia.
Qed.

Lemma after_rounds_trace (c : Client) (t : Duration) (k : nat) (s : State) :
  trace (after_rounds c t k s) =
  (trace s
   ++ concat (repeat [EvDial (network c) (address c) t; EvSleep (connSleep c)] k))%list.
Proof.
  revert s. induction k as [|k IH]; intros s; simpl.
  - now rewrite app_nil_r.
  - rewrite IH. simpl. now rewrite <- !app_assoc.
Qed.

Lemma after_rounds_snoc (c : Client) (t : Duration) (k : nat) (s : State) :
  after_rounds c t (S k) s = round c t (after_rounds c t k s).
Proof.
  revert s. induction k as [|k IH]; intros s; [reflexivity|].
  change (after_rounds c t (S (S k)) s) with (after_rounds c t (S k) (round c t s)).
  now rewrite IH.
Qed.

Lemma dial_loop_step (c : Client) (t : Duration) (n : nat)
    (last : option Conn * option error) (env : Env) (s : State) :
  dial_loop c t (S n) last env s =
  let r := dial_of env (ndial s) in
  if isTimeout (err_of r)
  then dial_loop c t n (val_of r, err_of r) env (round c t s)
  else (Done (val_of r, err_of r), after_dial c t s).
Proof.
  cbn. unfold go_bind. cbn.
  destruct (isTimeout (err_of (dial_of env (ndial s)))); reflexivity.
Qed.

(** The first attempt that does not time out ends the loop. *)
Lemma dial_loop_stops (c : Client) (t : Duration) (env : Env) (k : nat) :
  forall (n : nat) (last : option Conn * option error) (s : State),
    (k < n)%nat ->
    (forall j, (j < k)%nat -> isTimeout (err_of (dial_of env (ndial s + j))) = true) ->
    isTimeout (err_of (dial_of env (ndial s + k))) = false ->
    dial_loop c t n last env s =
      (Done (val_of (dial_of env (ndial s + k)), err_of (dial_of env (ndial s + k))),
       after_dial c t (after_rounds c t k s)).
Proof.
  induction k as [|k IH]; intros n last s Hk Hbefore Hstop.
  - destruct n as [|n]; [lia|]. rewrite dial_loop_step. cbn zeta.
    rewrite Nat.add_0_r in Hstop. rewrite Hstop, Nat.add_0_r. reflexivity.
  - destruct n as [|n]; [lia|]. rewrite dial_loop_step. cbn zeta.
    pose proof (Hbefore 0%nat ltac:(lia)) as H0. rewrite Nat.add_0_r in H0.
    rewrite H0.
    rewrite (IH n _ (round c t s)).
    + cbn [round ndial]. rewrite <- Nat.add_succ_comm. reflexivity.
    + lia.
    + intros j Hj. cbn [round ndial]. rewrite Nat.add_succ_comm.
      apply Hbefore. lia.
    + cbn [round ndial]. rewrite Nat.add_succ_comm. exact Hstop.
Qed.

(** When every attempt times out, the loop ends with the last of them. *)
Lemma dial_loop_exhausted (c : Client) (t : Duration) (env : Env) (n : nat) :
  forall (last : option Conn * option error) (s : State),
    (forall j, (j < n)%nat -> isTimeout (err_of (dial_of env (ndial s + j))) = true) ->
    dial_loop c t n last env s =
      (Done (match n with
             | O => last
             | S m => (None, err_of (dial_of env (ndial s + m)))
             end),
       after_rounds c t n s).
Proof.
  induction n as [|n IH]; intros last s Hall; [reflexivity|].
  rewrite dial_loop_step. cbn zeta.
  pose proof (Hall 0%nat ltac:(lia)) as H0. rewrite Nat.add_0_r in H0.
  rewrite H0. rewrite IH.
  - cbn [after_rounds]. f_equal. f_equal.
    destruct n as [|m].
    + rewrite Nat.add_0_r.
      destruct (dial_of env (ndial s)) as [conn|e]; [discriminate H0 | reflexivity].
    + cbn [round ndial]. now rewrite <- Nat.add_succ_comm.
  - intros j Hj. cbn [round ndial]. rewrite Nat.add_succ_comm. apply Hall. lia.
Qed.

Lemma attempts_app (t1 t2 : list Event) :
  attempts (t1 ++ t2)%list = (attempts t1 + attempts t2)%nat.
Proof. unfold attempts. now rewrite filter_app, length_app. Qed.

(** The loop dials once an iteration at most. *)
Lemma dial_loop_attempts (c : Client) (t : Duration) (env : Env) (n : nat) :
  forall (last : option Conn * option error) (s : State),
    (attempts (trace (snd (dial_loop c t n last env s))) <= attempts (trace s) + n)%nat.
Proof.
  induction n as [|n IH]; intros last s.
  - cbn. lia.
  - rewrite dial_loop_step. cbn zeta.
    destruct (isTimeout (err_of (dial_of env (ndial s)))).
    + etransitivity; [apply IH|]. cbn [round trace].
      rewrite !attempts_app. cbn. lia.
    + cbn [snd after_dial trace]. rewrite attempts_app. cbn. lia.
Qed.

(** C5.  [dial] makes at most [connRetries + 1] attempts.  While the
    attempts time out it sleeps [connSleep] and tries again; the first
    attempt that does not time out (a connection, or any other failure) is
    what it returns, no attempt following; when all [connRetries + 1]
    attempts time out it returns the error of the last one. *)
Theorem dial_retry_policy (c : Client) (env : Env) (s : State) :
  0 <= connRetries c < maxInt ->
  let n := Z.to_nat (connRetries c) in
  let t := dial_timeout c in
  let attempt k := dial_of env (ndial s + k) in
  let timed_out_at k := isTimeout (err_of (attempt k)) in
  (attempts (trace (snd (dial c env s))) <= attempts (trace s) + (n + 1))%nat
  /\ (forall k, (k <= n)%nat ->
        (forall j, (j < k)%nat -> timed_out_at j = true) ->
        timed_out_at k = false ->
        dial c env s =
          (Done (val_of (attempt k), err_of (attempt k)),
           after_dial c t (after_rounds c t k s))
        /\ trace (after_dial c t (after_rounds c t k s)) =
             (trace s
              ++ concat (repeat [EvDial (network c) (address c) t;
                                 EvSleep (connSleep c)] k)
              ++ [EvDial (network c) (address c) t])%list)
  /\ ((forall j, (j <= n)%nat -> timed_out_at j = true) ->
        dial c env s =
          (Done (None, err_of (attempt n)), after_rounds c t (n + 1) s)
        /\ attempts (trace (after_rounds c t (n + 1) s)) =
             (attempts (trace s) + (n + 1))%nat).
Proof.
  intros Hr n t attempt timed_out_at.
  assert (Hn : Z.to_nat (connRetries c + 1) = S n) by (subst n; lia).
  unfold dial. fold (dial_timeout c). fold t. rewrite Hn.
  split; [|split].
  - replace (n + 1)%nat with (S n) by lia. apply dial_loop_attempts.
  - intros k Hk Hbefore Hstop. split.
    + apply dial_loop_stops; [lia | exact Hbefore | exact Hstop].
    + cbn [after_dial trace]. rewrite after_rounds_trace.
      now rewrite <- app_assoc.
  - intros Hall. split.
    + replace (n + 1)%nat with (S n) by lia.
      rewrite dial_loop_exhausted; [reflexivity|].
      intros j Hj. apply Hall. lia.
    + rewrite after_rounds_trace, attempts_app. f_equal.
      generalize (n + 1)%nat. intros m. induction m as [|m IH]; [reflexivity|].
      cbn [repeat concat]. rewrite attempts_app, IH. reflexivity.
Qed.

Lemma dial_retry_policy_witness :
  0 <= connRetries retrying < maxInt
  /\ dial retrying flaky state0 =
       (Done (Some conn0, None),
        after_dial retrying (15 * Second) (after_rounds retrying (15 * Second) 2 state0))
  /\ (attempts (trace (snd (dial retrying flaky state0))) <= 3)%nat.
Proof.
  assert (Hr : 0 <= connRetries retrying < maxInt) by (vm_compute; split; congruence).
  pose proof (dial_retry_policy retrying flaky state0 Hr) as [Hle [Hstop _]].
  split; [exact Hr|]. split; [|exact Hle].
  refine (proj1 (Hstop 2%nat _ _ _)).
  - vm_compute. lia.
  - intros j Hj. destruct j as [|[|j]]; [reflexivity | reflexivity | lia].
  - reflexivity.
Defined.

(** ** Scanning a path *)

Lemma is_unix_false (n : string) :
  n <> "unix" -> n <> "unixpacket" -> is_unix n = false.
Proof.
  intros H1 H2. unfold is_unix.
  apply String.eqb_neq in H1, H2. now rewrite H1, H2.
Qed.

Lemma network_events_app (t1 t2 : list Event) :
  filter is_network (t1 ++ t2) = (filter is_network t1 ++ filter is_network t2)%list.
Proof. apply filter_app. Qed.

(** C6.  Over a TCP-family transport, [Scan] of a path that exists and is
    a directory fails with the error of [tcpDirErr]; the call of
    [os.Stat] is its only effect: nothing is dialled, nothing goes over
    the network. *)
Theorem Scan_directory_over_tcp
    (c : Client) (p : string) (env : Env) (s : State) (fi : FileInfo) :
  network c <> "unix" ->
  network c <> "unixpacket" ->
  stat_of env p = Ok fi ->
  IsDir fi = true ->
  Scan c p env s =
    (Done (None, Some (Errorf "Scanning directories not supported on a TCP connection")),
     after_stat p s)
  /\ filter is_network (trace (after_stat p s)) = filter is_network (trace s)
  /\ attempts (trace (after_stat p s)) = attempts (trace s).
Proof.
  intros Hu Hp Hstat Hdir. split; [|split].
  - unfold Scan, fileCmd. cbn. unfold go_bind. cbn.
    rewrite Hstat. cbn. rewrite (is_unix_false _ Hu Hp). cbn.
    rewrite Hdir. reflexivity.
  - cbn [after_stat trace]. rewrite network_events_app. cbn. apply app_nil_r.
  - cbn [after_stat trace]. rewrite attempts_app. cbn. lia.
Qed.

Lemma Scan_directory_over_tcp_witness :
  run (Scan tcpClient "./examples/data") with_directory state0 =
    (Done (None, Some (Errorf tcpDirErr)), after_stat "./examples/data" state0)
  /\ filter is_network (trace (after_stat "./examples/data" state0)) = [].
Proof.
  pose proof (Scan_directory_over_tcp tcpClient "./examples/data" with_directory state0
                {| IsDir := true; Size := 4096 |}) as H.
  destruct H as [H1 [H2 _]].
  - discriminate.
  - discriminate.
  - reflexivity.
  - reflexivity.
  - split; [exact H1 | exact H2].
Defined.

(** When [os.Stat] fails otherwise than with "not found", [fileCmd] goes
    on with a nil [FileInfo]; over TCP the next thing it does is to call
    [IsDir] on it. *)
Lemma fileCmd_stat_error (c : Client) (p : string) (env : Env) (s : State)
    (e : sys_error) :
  is_unix (network c) = false ->
  stat_of env p = Err e ->
  os_IsNotExist (Some (Sys e)) = false ->
  fileCmd c p env s = (Panic NilDereference, after_stat p s).
Proof.
  intros Hu Hstat Hne. unfold fileCmd. cbn. unfold go_bind. cbn.
  rewrite Hstat. cbn [err_of val_of]. rewrite Hne, Hu. reflexivity.
Qed.

(** C10: [os.Stat] answers "permission denied" for the path.  The error is
    not returned: [Scan] over TCP panics on [stat.IsDir()]. *)
Theorem Scan_stat_permission_denied_panics :
  run (Scan tcpClient "/root/private/mail") with_forbidden state0 =
    (Panic NilDereference, after_stat "/root/private/mail" state0).
Proof.
  apply fileCmd_stat_error with (e := PathError "stat" "/root/private/mail" EACCES);
    reflexivity.
Qed.

(** ** Scanning a stream *)

Lemma run_bind {A B} (m : Go A) (k : A -> Go B) (env : Env) (s : State) :
  bind m k env s =
  match m env s with
  | (Done a, s') => k a env s'
  | (Panic p, s') => (Panic p, s')
  end.
Proof. reflexivity. Qed.

Lemma is_write_on_connection : on_connection is_write.
Proof. repeat split. Qed.

Lemma is_payload_on_connection : on_connection is_payload.
Proof. repeat split. Qed.

Lemma dial_loop_filter (f : Event -> bool) (c : Client) (t : Duration) (env : Env)
    (n : nat) :
  on_connection f ->
  forall (last : option Conn * option error) (s : State),
    filter f (trace (snd (dial_loop c t n last env s))) = filter f (trace s).
Proof.
  intros (Hd & Hs & _). induction n as [|n IH]; intros last s; [reflexivity|].
  rewrite dial_loop_step. cbn zeta.
  destruct (isTimeout (err_of (dial_of env (ndial s)))).
  - rewrite IH. cbn [round trace]. rewrite !filter_app. cbn.
    rewrite Hd, Hs. now rewrite !app_nil_r.
  - cbn [snd after_dial trace]. rewrite filter_app. cbn.
    rewrite Hd. apply app_nil_r.
Qed.

Lemma clen_of_filter (f : Event -> bool) (i : Reader) (env : Env) (s : State) :
  on_connection f ->
  filter f (trace (snd (clen_of i env s))) = filter f (trace s).
Proof.
  intros (_ & _ & Hf). destruct i as [v|v|v|v|v]; try reflexivity.
  cbn. unfold go_bind. cbn. destruct (file_stat v); cbn.
  all: rewrite filter_app; cbn; rewrite Hf; apply app_nil_r.
Qed.

Lemma processResponse_trace (c : Client) (conn : Conn) (p : string)
    (env : Env) (s : State) :
  snd (processResponse c (Some conn) p env s) = after_read s.
Proof.
  unfold processResponse. cbn. unfold go_bind. cbn.
  destruct (line_of env (nread s)) as [l|e]; [|reflexivity].
  destruct (HasPrefix l "-1"); [reflexivity|].
  destruct (HasPrefix l "1"); cbn.
  - unfold slice_from. destruct (2 <=? String.length l)%nat; reflexivity.
  - destruct (HasPrefix l "0"); reflexivity.
Qed.

(** The request line in terms of the type switch: with the connection
    there and [N] what the switch yields, the first thing put on the
    connection is "stream/N", and a line other than "OK" read next ends
    the call before any payload. *)
Lemma readerCmd_request_line
    (c : Client) (i : Reader) (env : Env) (s : State)
    (conn : Conn) (s1 : State) (N : Z) (s2 : State) :
  dial c env s = (Done (Some conn, None), s1) ->
  clen_of i env s1 = (Done (inl N), s2) ->
  conn_writes (trace s2) = conn_writes (trace s)
  /\ (exists evs,
        trace (snd (ScanReader c i env s)) =
          (trace s2
           ++ [EvStartRequest 0; EvSetDeadline (cmdTimeout c);
               EvPrintfLine ("stream/" ++ fmt_d N)]
           ++ evs)%list)
  /\ (forall l,
        write_of env (nwrite s2) = None ->
        line_of env (nread s2) = Ok l ->
        l <> "OK" ->
        ScanReader c i env s =
          (Done (None, Some (Errorf ("Invalid server response: " ++ l))),
           after_rejection c N s2)
        /\ filter is_payload (trace (after_rejection c N s2)) =
             filter is_payload (trace s)).
Proof.
  intros Hdial Hclen.
  assert (Hs1 : forall f, on_connection f -> filter f (trace s2) = filter f (trace s)).
  { intros f Hf.
    replace s2 with (snd (clen_of i env s1)) by now rewrite Hclen.
    rewrite clen_of_filter by exact Hf.
    replace s1 with (snd (dial c env s)) by now rewrite Hdial.
    apply dial_loop_filter, Hf. }
  split; [exact (Hs1 _ is_write_on_connection)|].
  unfold ScanReader, readerCmd.
  rewrite run_bind, Hdial. unfold defer_. rewrite run_bind, Hclen.
  cbn -[fmt_d processResponse]. unfold go_bind. cbn -[fmt_d processResponse].
  split.
  - destruct (write_of env (nwrite s2)) as [e|]; cbn -[fmt_d processResponse].
    { rewrite <- !app_assoc. cbn [app]. eexists. reflexivity. }
    destruct (line_of env (nread s2)) as [l|e]; cbn -[fmt_d processResponse].
    2: { rewrite <- !app_assoc. cbn [app]. eexists. reflexivity. }
    destruct (l =? "OK")%string; cbn -[fmt_d processResponse].
    2: { rewrite <- !app_assoc. cbn [app]. eexists. reflexivity. }
    destruct (write_of env (S (nwrite s2))) as [e|]; cbn -[fmt_d processResponse].
    { rewrite <- !app_assoc. cbn [app]. eexists. reflexivity. }
    match goal with
    | |- context [processResponse c (Some conn) "" env ?s3] =>
        pose proof (processResponse_trace c conn "" env s3) as Hp;
        destruct (processResponse c (Some conn) "" env s3) as [[a|q] s4]
    end.
    all: cbn in Hp; subst s4; cbn.
    all: rewrite <- !app_assoc; cbn [app]; eexists; reflexivity.
  - intros l Hw Hl Hne. rewrite Hw. cbn -[fmt_d]. rewrite Hl.
    apply String.eqb_neq in Hne. rewrite Hne. cbn -[fmt_d]. split.
    + unfold after_rejection, request_events. f_equal. f_equal.
      rewrite <- !app_assoc. reflexivity.
    + cbn [after_rejection trace]. rewrite filter_app. cbn.
      rewrite app_nil_r. exact (Hs1 _ is_payload_on_connection).
Qed.

(** The type switch finds the length of the source. *)
Lemma clen_of_source_length (i : Reader) (N : Z) (env : Env) (s : State) :
  source_length i = Some N ->
  clen_of i env s = (Done (inl N), after_length i s).
Proof.
  intros H. destruct i as [v|v|v|v|v]; cbn in H; try discriminate H.
  1-3: inversion H; subst; reflexivity.
  cbn. unfold go_bind. cbn.
  destruct (file_stat v) as [info|e]; [|discriminate H].
  inversion H; subst. reflexivity.
Qed.

(** C7.  For a source whose length [N] can be determined ([N] is the
    number of unread bytes of a buffer, bytes reader or strings reader,
    the size that [Stat] reports for an open file), once the connection
    is there, the first thing [ScanReader] puts on the connection is the
    request line "stream/N"; nothing was written before it, and all the
    rest comes after it.  If the line read next is not "OK", the call
    fails with the error "Invalid server response: " followed by that
    line, and no payload was written. *)
Theorem ScanReader_request_line
    (c : Client) (i : Reader) (env : Env) (s : State)
    (conn : Conn) (s1 : State) (N : Z) :
  dial c env s = (Done (Some conn, None), s1) ->
  source_length i = Some N ->
  conn_writes (trace (after_length i s1)) = conn_writes (trace s)
  /\ (exists evs,
        trace (snd (ScanReader c i env s)) =
          (trace (after_length i s1)
           ++ [EvStartRequest 0; EvSetDeadline (cmdTimeout c);
               EvPrintfLine ("stream/" ++ fmt_d N)]
           ++ evs)%list)
  /\ (forall l,
        write_of env (nwrite (after_length i s1)) = None ->
        line_of env (nread (after_length i s1)) = Ok l ->
        l <> "OK" ->
        ScanReader c i env s =
          (Done (None, Some (Errorf ("Invalid server response: " ++ l))),
           after_rejection c N (after_length i s1))
        /\ filter is_payload (trace (after_rejection c N (after_length i s1))) =
             filter is_payload (trace s)).
Proof.
  intros Hdial Hlen.
  exact (readerCmd_request_line c i env s conn s1 N (after_length i s1) Hdial
           (clen_of_source_length i N env s1 Hlen)).
Qed.

Lemma ScanReader_request_line_witness :
  source_length (BytesBuffer nine_bytes) = Some 9
  /\ run (ScanReader tcpClient (BytesBuffer nine_bytes)) (answering "BUSY") state0 =
       (Done (None, Some (Errorf "Invalid server response: BUSY")),
        after_rejection tcpClient 9 (after_dial tcpClient (15 * Second) state0))
  /\ conn_writes (trace (after_rejection tcpClient 9
                           (after_dial tcpClient (15 * Second) state0))) =
       [EvPrintfLine "stream/9"].
Proof.
  pose proof (ScanReader_request_line tcpClient (BytesBuffer nine_bytes)
                (answering "BUSY") state0 conn0
                (after_dial tcpClient (15 * Second) state0) 9
                eq_refl eq_refl) as [_ [_ H]].
  split; [reflexivity|]. split; [|reflexivity].
  refine (proj1 (H "BUSY" _ _ _)).
  - reflexivity.
  - reflexivity.
  - discriminate.
Defined.

(** *** Where the errors come from *)

Lemma no_errorf_err_of {A} (r : result A) : no_errorf (err_of r).
Proof. intros msg. destruct r; discriminate. Qed.

Lemma no_errorf_sys (w : option sys_error) : no_errorf (option_map Sys w).
Proof. intros msg. destruct w; discriminate. Qed.

Lemma length_known_no_errorf (r : option Response) (e : option error) :
  no_errorf e -> length_known (r, e).
Proof. intros H. exact (H noSizeErr). Qed.

Lemma length_known_sys (r : option Response) (e : sys_error) :
  length_known (r, Some (Sys e)).
Proof. discriminate. Qed.

Lemma length_known_none (r : option Response) : length_known (r, None).
Proof. discriminate. Qed.

Lemma length_known_invalid (r : option Response) (l : string) :
  length_known (r, Some (Errorf (invalidRespErr l))).
Proof. discriminate. Qed.

Lemma length_known_unknown_status (r : option Response) :
  length_known (r, Some (Errorf unknownStatusErr)).
Proof. discriminate. Qed.

#[local] Hint Resolve length_known_no_errorf length_known_sys length_known_none
  length_known_invalid length_known_unknown_status : core.

Lemma dial_loop_errors (c : Client) (t : Duration) (n : nat) :
  forall last : option Conn * option error,
    no_errorf (snd last) ->
    post (dial_loop c t n last) (fun d => no_errorf (snd d)).
Proof.
  induction n as [|n IH]; intros last Hlast; cbn [dial_loop].
  - apply post_ret. exact Hlast.
  - apply post_seq. intros r.
    destruct (isTimeout (err_of r)).
    + apply post_seq. intros _. apply IH. apply no_errorf_err_of.
    + apply post_ret. apply no_errorf_err_of.
Qed.

Lemma dial_errors (c : Client) : post (dial c) (fun d => no_errorf (snd d)).
Proof. apply dial_loop_errors. intros msg. discriminate. Qed.

Lemma next_write_errors : post next_write no_errorf.
Proof.
  intros env s a s' E. unfold next_write in E. inversion E; subst.
  apply no_errorf_sys.
Qed.

Lemma tc_PrintfLine_errors (conn : option Conn) (line : string) :
  post (tc_PrintfLine conn line) no_errorf.
Proof.
  unfold tc_PrintfLine. apply post_on_conn, post_seq. intros _.
  apply next_write_errors.
Qed.

Lemma io_Copy_errors (conn : option Conn) (i : Reader) :
  post (io_Copy conn i) no_errorf.
Proof.
  unfold io_Copy. apply post_on_conn, post_seq. intros _.
  apply next_write_errors.
Qed.

Lemma processResponse_errors (c : Client) (tc : option Conn) (p : string) :
  post (processResponse c tc p) length_known.
Proof.
  unfold processResponse. repeat post_step.
Qed.

Lemma clen_of_recognized (i : Reader) :
  recognized i = true ->
  post (clen_of i) (fun cl => forall e, cl = inr e -> exists se, e = Sys se).
Proof.
  intros Hi. destruct i as [v|v|v|v|v]; try discriminate Hi; cbn [clen_of].
  1-3: apply post_ret; intros e E; discriminate E.
  apply post_seq. intros [fi|se]; apply post_ret; intros e E.
  - discriminate E.
  - inversion E. now exists se.
Qed.

Lemma readerCmd_errors (c : Client) (i : Reader) :
  recognized i = true -> post (readerCmd c i) length_known.
Proof.
  intros Hi. unfold readerCmd.
  eapply post_bind; [apply dial_errors|]. intros [conn [e|]] He; cbn [snd] in He.
  { apply post_ret. auto. }
  apply post_defer.
  eapply post_bind; [apply (clen_of_recognized _ Hi)|]. intros [clen|e] Hcl.
  2: { destruct (Hcl e eq_refl) as [se ->]. apply post_ret. auto. }
  do 3 (apply post_seq; intros ?).
  eapply post_bind; [apply tc_PrintfLine_errors|]. intros [e|] Hw.
  { apply post_seq. intros _. apply post_ret. auto. }
  apply post_seq. intros _. apply post_seq. intros [l|e].
  2: { apply post_seq. intros _. apply post_ret. auto. }
  destruct (negb (l =? "OK")%string).
  { apply post_seq. intros _. apply post_ret. auto. }
  apply post_seq. intros _.
  eapply post_bind; [apply io_Copy_errors|]. intros [e|] Hc.
  { apply post_seq. intros _. apply post_ret. auto. }
  do 3 (apply post_seq; intros ?).
  apply post_defer, post_seq. intros _. apply processResponse_errors.
Qed.

(** C8 (amended).  [ScanReader] dials first.  With the connection there, a
    source of no recognized kind makes it fail with the error of
    [noSizeErr], nothing being sent.  For a source of a recognized kind
    that error never occurs: the type switch yields the length, or, for
    an open file whose [Stat] fails, the error of [Stat]. *)
Theorem ScanReader_unknown_length
    (c : Client) (i : Reader) (env : Env) (s : State) :
  (recognized i = false ->
   forall conn s1,
     dial c env s = (Done (Some conn, None), s1) ->
     ScanReader c i env s =
       (Done (None, Some (Errorf "The content length could not be determined")),
        after_close s1))
  /\ (recognized i = true ->
      (forall r err s',
         ScanReader c i env s = (Done (r, err), s') ->
         err <> Some (Errorf "The content length could not be determined"))
      /\ (exists s2,
            (exists N, clen_of i env s = (Done (inl N), s2))
            \/ (exists f e, i = OsFile f /\ file_stat f = Err e
                            /\ clen_of i env s = (Done (inr (Sys e)), s2)))).
Proof.
  split.
  - intros Hi conn s1 Hdial.
    destruct i as [v|v|v|v|v]; try discriminate Hi.
    unfold ScanReader, readerCmd. rewrite run_bind, Hdial. reflexivity.
  - intros Hi. split.
    + intros r err s' E.
      exact (readerCmd_errors c i Hi env s (r, err) s' E).
    + destruct i as [v|v|v|v|v]; try discriminate Hi.
      1-3: eexists; left; eexists; reflexivity.
      cbn. unfold go_bind. cbn.
      destruct (file_stat v) as [fi|e] eqn:E; eexists.
      * left. eexists. reflexivity.
      * right. exists v, e. split; [reflexivity | split; [exact E | reflexivity]].
Qed.

Lemma ScanReader_unknown_length_witness :
  run (ScanReader tcpClient (OtherReader "BZh91AY&SY")) (answering "OK") state0 =
    (Done (None, Some (Errorf noSizeErr)),
     after_close (after_dial tcpClient (15 * Second) state0))
  /\ conn_writes (trace (after_close (after_dial tcpClient (15 * Second) state0))) = [].
Proof.
  split; [|reflexivity].
  refine (proj1 (ScanReader_unknown_length tcpClient (OtherReader "BZh91AY&SY")
                   (answering "OK") state0) _ conn0 _ _); reflexivity.
Defined.

(** C8, as the specification words it, fails: when the dial is refused, a
    source of no recognized kind gets the error of the dial. *)
Lemma ScanReader_unrecognized_dial_refused :
  run (ScanReader tcpClient (OtherReader "BZh91AY&SY")) unreachable state0 =
    (Done (None, Some (Sys refused)), after_dial tcpClient (15 * Second) state0)
  /\ Some (Sys refused) <> Some (Errorf noSizeErr).
Proof. split; [reflexivity | discriminate]. Qed.

(** ** The earlier revision *)

(** Without the final [else], a line that begins with none of "0", "1"
    and "-1" was decoded without an error, into a response that holds the
    file name alone. *)
Remark Earlier_processResponse_unexpected_line
    (c : Client) (conn : Conn) (p : string) (env : Env) (s : State) (l : string) :
  line_of env (nread s) = Ok l ->
  HasPrefix l "0" = false ->
  HasPrefix l "1" = false ->
  HasPrefix l "-1" = false ->
  Earlier.processResponse c (Some conn) p env s =
    (Done (Some (set_Filename (filename_of p) Response_zero), None), after_read s).
Proof.
  intros Hline H0 H1 Hm. unfold Earlier.processResponse, filename_of. cbn.
  unfold go_bind. cbn. rewrite Hline, Hm, H1, H0. cbn.
  destruct (p =? "")%string; reflexivity.
Qed.

(** The earlier [NewClient] set no command timeout. *)
Remark Earlier_NewClient_cmdTimeout
    (network address : string) (env : Env) (s : State)
    (c : Client) (err : option error) (s' : State) :
  Earlier.NewClient network address env s = (Done (Some c, err), s') ->
  connTimeout c = 15 * Second /\ cmdTimeout c = 0
  /\ connSleep c = 1 * Second /\ connRetries c = 0.
Proof.
  unfold Earlier.NewClient.
  destruct ((network =? "")%string && (address =? "")%string);
    match goal with
    | |- context [is_unix ?n] => destruct (is_unix n)
    end;
    match goal with
    | |- context [supported ?n] => destruct (supported n); cbn [negb]
    end.
  all: cbn; unfold go_bind, go_ret; cbn.
  all: try match goal with
       | |- context [os_IsNotExist ?e] => destruct (os_IsNotExist e)
       end.
  all: intros E; inversion E; subst; cbn; auto.
Qed.

(** * Further properties *)

(** ** The setters *)

(** [SetConnRetries] stores its argument, or 0 when the argument is
    negative, and touches no other field; the stored value is never
    negative. *)
Lemma SetConnRetries_clamps (n : Z) (c : Client) :
  connRetries (SetConnRetries n c) = Z.max 0 n
  /\ 0 <= connRetries (SetConnRetries n c)
  /\ network (SetConnRetries n c) = network c
  /\ address (SetConnRetries n c) = address c
  /\ connTimeout (SetConnRetries n c) = connTimeout c
  /\ connSleep (SetConnRetries n c) = connSleep c
  /\ cmdTimeout (SetConnRetries n c) = cmdTimeout c.
Proof.
  unfold SetConnRetries. cbn.
  destruct (Z.ltb_spec n 0); repeat split; lia.
Qed.

Lemma call_keeps (c : Client) (f : Setter) :
  network (call c f) = network c /\ address (call c f) = address c
  /\ (0 <= connRetries c -> 0 <= connRetries (call c f)).
Proof.
  destruct f as [t|t|n|d]; cbn; repeat split; auto.
  intros _. destruct (Z.ltb_spec n 0); lia.
Qed.

Lemma configure_keeps (fs : list Setter) :
  forall c : Client,
    network (configure c fs) = network c /\ address (configure c fs) = address c
    /\ (0 <= connRetries c -> 0 <= connRetries (configure c fs)).
Proof.
  induction fs as [|f fs IH]; intros c; [cbn; auto|].
  change (configure c (f :: fs)) with (configure (call c f) fs).
  destruct (IH (call c f)) as (Hn & Ha & Hr).
  destruct (call_keeps c f) as (Hn' & Ha' & Hr').
  rewrite Hn, Ha. auto.
Qed.

Lemma NewClient_returns (network0 address0 : string) (env : Env) (s : State)
    (c : Client) (err : option error) (s' : State) :
  NewClient network0 address0 env s = (Done (Some c, err), s') ->
  supported (network c) = true /\ connRetries c = 0.
Proof.
  unfold NewClient.
  destruct ((network0 =? "")%string && (address0 =? "")%string);
    match goal with
    | |- context [supported ?n] => destruct (supported n) eqn:Hs; cbn [negb]
    end;
    try (intros E; discriminate E).
  all: match goal with
       | |- context [is_unix ?n] => destruct (is_unix n)
       end.
  all: cbn; unfold go_bind, go_ret; cbn.
  all: try match goal with
       | |- context [os_IsNotExist ?e] => destruct (os_IsNotExist e)
       end.
  all: intros E; inversion E; subst; cbn; auto.
Qed.

(** X1.  Whatever setters are called, in whatever order, on a client that
    [NewClient] returned, the transport and the address stay what
    [NewClient] made them, the transport is one of the five supported
    ones, and the number of retries is not negative. *)
Theorem configured_client_invariant
    (network0 address0 : string) (env : Env) (s : State)
    (c : Client) (err : option error) (s' : State) (fs : list Setter) :
  NewClient network0 address0 env s = (Done (Some c, err), s') ->
  network (configure c fs) = network c
  /\ address (configure c fs) = address c
  /\ supported (network (configure c fs)) = true
  /\ 0 <= connRetries (configure c fs).
Proof.
  intros H. apply NewClient_returns in H as [Hs Hr].
  destruct (configure_keeps fs c) as (Hn & Ha & Hc).
  rewrite Hn. repeat split; auto. apply Hc. lia.
Qed.

Lemma configured_client_invariant_witness :
  network (configure tcpClient [CallSetConnRetries (-2); CallSetConnSleep 5]) = "tcp"
  /\ 0 <= connRetries (configure tcpClient [CallSetConnRetries (-2); CallSetConnSleep 5]).
Proof.
  pose proof (configured_client_invariant "tcp" "127.1.1.1:4010" (scripted [] [] [] [])
                state0 tcpClient None state0
                [CallSetConnRetries (-2); CallSetConnSleep 5]) as H.
  destruct H as (Hn & _ & _ & Hr).
  - vm_compute. reflexivity.
  - split; [exact Hn | exact Hr].
Defined.

(** ** Construction, case by case *)

Lemma is_unix_supported (n : string) : is_unix n = true -> supported n = true.
Proof.
  unfold is_unix, supported. intros H. apply orb_true_iff in H as [-> | ->].
  - reflexivity.
  - now rewrite orb_true_r.
Qed.

Lemma is_unix_nonempty (n : string) : is_unix n = true -> (n =? "")%string = false.
Proof.
  unfold is_unix. intros H. apply orb_true_iff in H as [H | H];
    apply String.eqb_eq in H; subst; reflexivity.
Qed.

Lemma supported_nonempty (n : string) : supported n = true -> (n =? "")%string = false.
Proof.
  unfold supported. intros H. destruct n; [discriminate H | reflexivity].
Qed.

(** X2.  A transport that is none of the five supported ones (the case of
    both arguments empty apart) is refused with the error "Protocol: ...
    is not supported"; no client is made and the file system is not
    looked at. *)
Theorem NewClient_unsupported
    (network0 address0 : string) (env : Env) (s : State) :
  supported network0 = false ->
  (network0 =? "")%string && (address0 =? "")%string = false ->
  NewClient network0 address0 env s =
    (Done (None, Some (Errorf ("Protocol: " ++ network0 ++ " is not supported"))), s).
Proof.
  intros Hs Hd. unfold NewClient. rewrite Hd, Hs. reflexivity.
Qed.

Lemma NewClient_unsupported_witness :
  run (NewClient "udp" "127.1.1.1:4010") (scripted [] [] [] []) state0 =
    (Done (None, Some (Errorf "Protocol: udp is not supported")), state0).
Proof.
  apply (NewClient_unsupported "udp" "127.1.1.1:4010" (scripted [] [] [] []) state0);
    reflexivity.
Defined.

(** X3.  For a unix transport whose socket [os.Stat] reports as not
    existing, [NewClient] fails with "The unix socket: ... does not
    exist", the address being the one given, and makes no client. *)
Theorem NewClient_socket_missing
    (network0 address0 : string) (env : Env) (s : State) (e : sys_error) :
  is_unix network0 = true ->
  stat_of env address0 = Err e ->
  os_IsNotExist (Some (Sys e)) = true ->
  NewClient network0 address0 env s =
    (Done (None, Some (Errorf ("The unix socket: " ++ address0 ++ " does not exist"))),
     after_stat address0 s).
Proof.
  intros Hu Hstat Hne. unfold NewClient.
  rewrite (is_unix_nonempty _ Hu). cbn [andb].
  rewrite (is_unix_supported _ Hu), Hu. cbn. unfold go_bind. cbn.
  rewrite Hstat. cbn [err_of]. rewrite Hne. reflexivity.
Qed.

Lemma NewClient_socket_missing_witness :
  run (NewClient "unix" "/tmp/.dumx.sock")
      (scripted [("/tmp/.dumx.sock", Err (PathError "stat" "/tmp/.dumx.sock" ENOENT))]
                [] [] []) state0 =
    (Done (None, Some (Errorf "The unix socket: /tmp/.dumx.sock does not exist")),
     after_stat "/tmp/.dumx.sock" state0).
Proof.
  apply (NewClient_socket_missing "unix" "/tmp/.dumx.sock"
           (scripted [("/tmp/.dumx.sock", Err (PathError "stat" "/tmp/.dumx.sock" ENOENT))]
                     [] [] [])
           state0 (PathError "stat" "/tmp/.dumx.sock" ENOENT)); reflexivity.
Defined.

(** X4.  For a unix transport whose socket [os.Stat] does not report as
    missing, [NewClient] returns the client for the transport and address
    given; when [os.Stat] failed in another way (permission denied, say),
    that error comes back together with the client. *)
Theorem NewClient_unix
    (network0 address0 : string) (env : Env) (s : State) :
  is_unix network0 = true ->
  os_IsNotExist (err_of (stat_of env address0)) = false ->
  NewClient network0 address0 env s =
    (Done (Some {| network := network0; address := address0;
                   connTimeout := defaultTimeout; connRetries := 0;
                   connSleep := defaultSleep; cmdTimeout := defaultCmdTimeout |},
           err_of (stat_of env address0)),
     after_stat address0 s).
Proof.
  intros Hu Hne. unfold NewClient.
  rewrite (is_unix_nonempty _ Hu). cbn [andb].
  rewrite (is_unix_supported _ Hu), Hu. cbn. unfold go_bind. cbn.
  rewrite Hne. reflexivity.
Qed.

Lemma NewClient_unix_witness :
  exists c,
    run (NewClient "unix" "/run/savdid.sock")
        (scripted [("/run/savdid.sock", Err (PathError "stat" "/run/savdid.sock" EACCES))]
                  [] [] []) state0 =
      (Done (Some c, Some (Sys (PathError "stat" "/run/savdid.sock" EACCES))),
       after_stat "/run/savdid.sock" state0).
Proof.
  eexists.
  apply (NewClient_unix "unix" "/run/savdid.sock"
           (scripted [("/run/savdid.sock", Err (PathError "stat" "/run/savdid.sock" EACCES))]
                     [] [] [])
           state0); reflexivity.
Defined.

(** X5.  For a supported transport that is not a unix one (tcp, tcp4,
    tcp6), [NewClient] succeeds with the transport and address given and
    the default settings, and does not look at the file system or at the
    address. *)
Theorem NewClient_tcp
    (network0 address0 : string) (env : Env) (s : State) :
  supported network0 = true ->
  is_unix network0 = false ->
  NewClient network0 address0 env s =
    (Done (Some {| network := network0; address := address0;
                   connTimeout := defaultTimeout; connRetries := 0;
                   connSleep := defaultSleep; cmdTimeout := defaultCmdTimeout |},
           None),
     s).
Proof.
  intros Hs Hu. unfold NewClient.
  rewrite (supported_nonempty _ Hs). cbn [andb].
  rewrite Hs, Hu. reflexivity.
Qed.

Lemma NewClient_tcp_witness :
  run (NewClient "tcp6" "no such host") (scripted [] [] [] []) state0 =
    (Done (Some {| network := "tcp6"; address := "no such host";
                   connTimeout := defaultTimeout; connRetries := 0;
                   connSleep := defaultSleep; cmdTimeout := defaultCmdTimeout |},
           None),
     state0).
Proof.
  apply (NewClient_tcp "tcp6" "no such host" (scripted [] [] [] []) state0); reflexivity.
Defined.

(** ** What a computation adds to the trace, and when it panics *)

Lemma emits_weaken {A} (P Q : Event -> Prop) (m : Go A) :
  (forall e, P e -> Q e) -> emits P m -> emits Q m.
Proof.
  intros HPQ Hm env s. destruct (Hm env s) as (evs & E & F).
  exists evs. split; [exact E|]. eapply Forall_impl; eauto.
Qed.

Lemma emits_silent {A} (P : Event -> Prop) (m : Go A) :
  (forall env s, trace (snd (m env s)) = trace s) -> emits P m.
Proof.
  intros H env s. exists []. rewrite H, app_nil_r. auto.
Qed.

Lemma emits_ret {A} (P : Event -> Prop) (a : A) : emits P (ret a).
Proof. apply emits_silent. reflexivity. Qed.

Lemma emits_panic {A} (P : Event -> Prop) (q : panic) : emits P (@go_panic A q).
Proof. apply emits_silent. reflexivity. Qed.

Lemma emits_emit (P : Event -> Prop) (e : Event) : P e -> emits P (emit e).
Proof. intros H env s. exists [e]. split; [reflexivity | auto]. Qed.

Lemma emits_bind {A B} (P : Event -> Prop) (m : Go A) (k : A -> Go B) :
  emits P m -> (forall a, emits P (k a)) -> emits P (bind m k).
Proof.
  intros Hm Hk env s. rewrite run_bind.
  destruct (Hm env s) as (e1 & E1 & F1).
  destruct (m env s) as [[a|q] s1]; cbn [snd] in E1.
  - destruct (Hk a env s1) as (e2 & E2 & F2).
    exists (e1 ++ e2)%list. rewrite E2, E1, app_assoc.
    split; [reflexivity | now apply Forall_app].
  - exists e1. auto.
Qed.

Lemma emits_defer {A} (P : Event -> Prop) (cleanup : Go unit) (body : Go A) :
  emits P cleanup -> emits P body -> emits P (defer_ cleanup body).
Proof.
  intros Hc Hb env s. unfold defer_.
  destruct (Hb env s) as (e1 & E1 & F1).
  destruct (body env s) as [[a|q] s1]; cbn [snd] in E1;
    destruct (Hc env s1) as (e2 & E2 & F2).
  - exists (e1 ++ e2)%list.
    destruct (cleanup env s1) as [[u|q] s2]; cbn [snd] in *;
      rewrite E2, E1, app_assoc; (split; [reflexivity | now apply Forall_app]).
  - exists (e1 ++ e2)%list. cbn [snd]. rewrite E2, E1, app_assoc.
    split; [reflexivity | now apply Forall_app].
Qed.

Lemma emits_on_conn {A} (P : Event -> Prop) (conn : option Conn) (k : Go A) :
  emits P k -> emits P (on_conn conn k).
Proof. destruct conn; [trivial | intros _; apply emits_panic]. Qed.

Lemma emits_os_Stat (P : Event -> Prop) (p : string) :
  P (EvStat p) -> emits P (os_Stat p).
Proof.
  intros H. apply emits_bind; [now apply emits_emit|].
  intros _. apply emits_silent. reflexivity.
Qed.

Lemma emits_os_Open (P : Event -> Prop) (p : string) :
  P (EvOpen p) -> emits P (os_Open p).
Proof.
  intros H. apply emits_bind; [now apply emits_emit|].
  intros _. apply emits_silent. reflexivity.
Qed.

Lemma emits_Dialer_Dial (P : Event -> Prop) (t : Duration) (n a : string) :
  P (EvDial n a t) -> emits P (Dialer_Dial t n a).
Proof.
  intros H. apply emits_bind; [now apply emits_emit|].
  intros _. apply emits_silent. reflexivity.
Qed.

Lemma emits_next_write (P : Event -> Prop) : emits P next_write.
Proof. apply emits_silent. reflexivity. Qed.

Lemma emits_tc_PrintfLine (P : Event -> Prop) (conn : option Conn) (line : string) :
  P (EvPrintfLine line) -> emits P (tc_PrintfLine conn line).
Proof.
  intros H. apply emits_on_conn, emits_bind; [now apply emits_emit|].
  intros _. apply emits_next_write.
Qed.

Lemma emits_io_Copy (P : Event -> Prop) (conn : option Conn) (i : Reader) :
  P (EvCopy (reader_data i)) -> emits P (io_Copy conn i).
Proof.
  intros H. apply emits_on_conn, emits_bind; [now apply emits_emit|].
  intros _. apply emits_next_write.
Qed.

Lemma emits_tc_ReadLine (P : Event -> Prop) (conn : option Conn) :
  P EvReadLine -> emits P (tc_ReadLine conn).
Proof.
  intros H. apply emits_on_conn, emits_bind; [now apply emits_emit|].
  intros _. apply emits_silent. reflexivity.
Qed.

Lemma emits_slice_from (P : Event -> Prop) (s : string) (n : nat) :
  emits P (slice_from s n).
Proof.
  unfold slice_from. destruct (n <=? String.length s)%nat;
    [apply emits_ret | apply emits_panic].
Qed.

Lemma emits_processResponse (P : Event -> Prop) (c : Client) (tc : option Conn)
    (p : string) :
  P EvReadLine -> emits P (processResponse c tc p).
Proof.
  intros H. unfold processResponse.
  apply emits_bind; [now apply emits_tc_ReadLine|].
  intros [l|e]; [|apply emits_ret].
  destruct (HasPrefix l "-1"); [apply emits_ret|].
  destruct (HasPrefix l "1" || HasPrefix l "0"); [|apply emits_ret].
  destruct (HasPrefix l "1"); [|apply emits_ret].
  apply emits_bind; [apply emits_slice_from | intros sig; apply emits_ret].
Qed.

Lemma emits_dial_loop (P : Event -> Prop) (c : Client) (t : Duration) (n : nat) :
  P (EvDial (network c) (address c) t) -> P (EvSleep (connSleep c)) ->
  forall last, emits P (dial_loop c t n last).
Proof.
  intros Hd Hs. induction n as [|n IH]; intros last; cbn [dial_loop].
  - apply emits_ret.
  - apply emits_bind; [now apply emits_Dialer_Dial|]. intros r.
    destruct (isTimeout (err_of r)); [|apply emits_ret].
    apply emits_bind; [now apply emits_emit | intros _; apply IH].
Qed.

Lemma panics_weaken {A} (m : Go A) (Q R : panic -> Prop) :
  (forall q, Q q -> R q) -> panics m Q -> panics m R.
Proof. intros H Hm env s q s' E. eauto. Qed.

Lemma panics_ret {A} (a : A) (Q : panic -> Prop) : panics (ret a) Q.
Proof. intros env s q s' E. discriminate E. Qed.

Lemma panics_bind {A B} (m : Go A) (k : A -> Go B) (R : A -> Prop)
    (Q : panic -> Prop) :
  post m R -> panics m Q -> (forall a, R a -> panics (k a) Q) ->
  panics (bind m k) Q.
Proof.
  intros Hp Hm Hk env s q s' E. rewrite run_bind in E.
  destruct (m env s) as [[a|q1] s1] eqn:E1.
  - exact (Hk a (Hp _ _ _ _ E1) _ _ _ _ E).
  - inversion E; subst. exact (Hm _ _ _ _ E1).
Qed.

Lemma panics_seq {A B} (m : Go A) (k : A -> Go B) (Q : panic -> Prop) :
  panics m Q -> (forall a, panics (k a) Q) -> panics (bind m k) Q.
Proof.
  intros Hm Hk. apply panics_bind with (R := fun _ => True); auto using post_any.
Qed.

Lemma panics_defer {A} (cleanup : Go unit) (body : Go A) (Q : panic -> Prop) :
  panics cleanup Q -> panics body Q -> panics (defer_ cleanup body) Q.
Proof.
  intros Hc Hb env s q s' E. unfold defer_ in E.
  destruct (body env s) as [[a|q1] s1] eqn:E1.
  - destruct (cleanup env s1) as [[u|q2] s2] eqn:E2; [discriminate E|].
    inversion E; subst. exact (Hc _ _ _ _ E2).
  - inversion E; subst. exact (Hb _ _ _ _ E1).
Qed.

Lemma panics_emit (e : Event) (Q : panic -> Prop) : panics (emit e) Q.
Proof. intros env s q s' E. discriminate E. Qed.

(** The calls on a connection that is there do not panic. *)
Lemma panics_connected (conn : Conn) (Q : panic -> Prop) :
  (forall d, panics (conn_SetDeadline (Some conn) d) Q)
  /\ (forall l, panics (tc_PrintfLine (Some conn) l) Q)
  /\ panics (tc_ReadLine (Some conn)) Q
  /\ (forall i, panics (io_Copy (Some conn) i) Q)
  /\ panics (tc_Flush (Some conn)) Q
  /\ panics (tc_Close (Some conn)) Q.
Proof.
  repeat split; intros; intros env s q s' E; discriminate E.
Qed.

Lemma panics_processResponse (c : Client) (conn : Conn) (p : string) :
  panics (processResponse c (Some conn) p) (fun q => q = SliceBounds 2 1).
Proof.
  unfold processResponse.
  apply panics_seq; [apply panics_connected|].
  intros [l|e]; [|apply panics_ret].
  destruct (HasPrefix l "-1"); [apply panics_ret|].
  destruct (HasPrefix l "1") eqn:H1; cbn [orb].
  - apply HasPrefix_char in H1 as [t ->].
    unfold slice_from. cbn [String.length].
    destruct t as [|b t]; cbn.
    + intros env s q s' E. cbn in E. unfold go_bind, go_panic in E.
      inversion E. reflexivity.
    + intros env s q s' E. discriminate E.
  - destruct (HasPrefix l "0"); apply panics_ret.
Qed.

(** ** More on the dial loop *)

Lemma one_of_result (r : result Conn) : one_of (val_of r, err_of r).
Proof. destruct r as [conn|e]; [left | right]; eexists; reflexivity. Qed.

Lemma dial_loop_outcome (c : Client) (t : Duration) (env : Env) (n : nat) :
  forall (last : option Conn * option error) (s : State),
  exists d s',
    dial_loop c t n last env s = (Done d, s')
    /\ (one_of last \/ (0 < n)%nat -> one_of d)
    /\ nwrite s' = nwrite s /\ nread s' = nread s
    /\ ((0 < n)%nat -> (attempts (trace s) < attempts (trace s'))%nat)
    /\ (attempts (trace s) <= attempts (trace s'))%nat.
Proof.
  induction n as [|n IH]; intros last s.
  - exists last, s. cbn. repeat split; auto; try lia.
    intros [H|H]; [exact H | lia].
  - rewrite dial_loop_step. cbn zeta.
    destruct (isTimeout (err_of (dial_of env (ndial s)))).
    + destruct (IH (val_of (dial_of env (ndial s)), err_of (dial_of env (ndial s)))
                  (round c t s)) as (d & s' & E & Hone & Hw & Hr & _ & Hle).
      exists d, s'. cbn [round trace nwrite nread] in *.
      rewrite !attempts_app in Hle. cbn in Hle.
      repeat split; auto; try lia.
      intros _. apply Hone. left. apply one_of_result.
    + eexists _, _. split; [reflexivity|].
      cbn [after_dial trace nwrite nread]. rewrite attempts_app. cbn.
      repeat split; auto; try lia.
      intros _. apply one_of_result.
Qed.

(** X6.  With a number of retries that is not negative and below the
    largest [int] (where the counter of the loop cannot wrap around),
    [dial] returns (it does not panic) after at least one attempt, and
    what it returns is either a connection without an error or an error
    without a connection; it neither writes to nor reads from any
    connection. *)
Theorem dial_outcome (c : Client) (env : Env) (s : State) :
  0 <= connRetries c < maxInt ->
  exists d s',
    dial c env s = (Done d, s')
    /\ ((exists conn, d = (Some conn, None)) \/ (exists e, d = (None, Some (Sys e))))
    /\ nwrite s' = nwrite s /\ nread s' = nread s
    /\ (attempts (trace s) < attempts (trace s'))%nat.
Proof.
  intros Hr. unfold dial.
  destruct (dial_loop_outcome c (if 0 <? connTimeout c then connTimeout c else 0) env
              (Z.to_nat (connRetries c + 1)) (None, None) s)
    as (d & s' & E & Hone & Hw & Hrd & Hlt & _).
  exists d, s'. repeat split; auto.
  - apply Hone. right. lia.
  - apply Hlt. lia.
Qed.

Lemma dial_outcome_witness :
  0 <= connRetries retrying < maxInt
  /\ exists d s',
       dial retrying unreachable state0 = (Done d, s')
       /\ ((exists conn, d = (Some conn, None)) \/ (exists e, d = (None, Some (Sys e))))
       /\ nwrite s' = nwrite state0 /\ nread s' = nread state0
       /\ (attempts (trace state0) < attempts (trace s'))%nat.
Proof.
  assert (H : 0 <= connRetries retrying < maxInt) by (vm_compute; split; congruence).
  split; [exact H|].
  exact (dial_outcome retrying unreachable state0 H).
Defined.

(** X7.  [dial] does nothing but dial and sleep: every attempt goes to the
    transport and address of the client, with [connTimeout] as the
    timeout of the dialer when it is positive and none (zero) otherwise,
    and every sleep lasts [connSleep]. *)
Theorem dial_events (c : Client) :
  emits (fun e =>
           e = EvDial (network c) (address c)
                 (if 0 <? connTimeout c then connTimeout c else 0)
           \/ e = EvSleep (connSleep c))
        (dial c).
Proof.
  unfold dial. apply emits_dial_loop; auto.
Qed.

(** ** More on the decoding *)

(** X8.  When [processResponse] succeeds on the line [l], the response
    holds [l] as [Raw] and the path (or "stream" for the empty path) as
    [Filename]; it is marked infected exactly when [l] begins with "1",
    and when it is not, [l] begins with "0" and the signature is empty. *)
Theorem processResponse_verdict
    (c : Client) (conn : Conn) (p : string) (env : Env) (s : State)
    (l : string) (r : Response) (s' : State) :
  line_of env (nread s) = Ok l ->
  processResponse c (Some conn) p env s = (Done (Some r, None), s') ->
  Raw r = l
  /\ Filename r = (if (p =? "")%string then "stream" else p)
  /\ Infected r = HasPrefix l "1"
  /\ (Infected r = false -> HasPrefix l "0" = true /\ Signature r = "").
Proof.
  intros Hline E.
  destruct (HasPrefix l "-1") eqn:Hm.
  { rewrite (processResponse_unknown_status c conn p env s l Hline Hm) in E.
    discriminate E. }
  destruct (HasPrefix l "1") eqn:H1.
  - destruct (Nat.leb_spec 2 (String.length l)) as [Hle|Hlt].
    + rewrite (processResponse_infected c conn p env s l Hline H1 Hle) in E.
      inversion E; subst; clear E. cbn.
      repeat split; try reflexivity; congruence.
    + rewrite (processResponse_short c conn p env s l Hline H1 Hlt) in E.
      discriminate E.
  - destruct (HasPrefix l "0") eqn:H0.
    + rewrite (processResponse_clean c conn p env s l Hline H0) in E.
      inversion E; subst; clear E. cbn.
      repeat split; reflexivity.
    + rewrite (processResponse_invalid c conn p env s l Hline H0 H1 Hm) in E.
      discriminate E.
Qed.

Lemma processResponse_verdict_witness :
  let r := {| Filename := "/tmp/clean.txt"; Signature := ""; Infected := false;
              Raw := "0" |} in
  Raw r = "0" /\ Filename r = "/tmp/clean.txt" /\ Infected r = HasPrefix "0" "1"
  /\ (Infected r = false -> HasPrefix "0" "0" = true /\ Signature r = "").
Proof.
  apply (processResponse_verdict unixClient conn0 "/tmp/clean.txt" (answering "0")
           state0 "0" _ (after_read state0)).
  - reflexivity.
  - vm_compute. reflexivity.
Defined.

(** X9.  A line that begins with "-1" makes the decoding fail with the
    error "Unknown status"; next to the error it returns a response that
    holds the file name and nothing else. *)
Theorem processResponse_minus_one
    (c : Client) (conn : Conn) (p : string) (env : Env) (s : State) (l : string) :
  line_of env (nread s) = Ok l ->
  HasPrefix l "-1" = true ->
  processResponse c (Some conn) p env s =
    (Done (Some {| Filename := if (p =? "")%string then "stream" else p;
                   Signature := ""; Infected := false; Raw := "" |},
           Some (Errorf "Unknown status")),
     after_read s).
Proof.
  intros Hline Hm.
  rewrite (processResponse_unknown_status c conn p env s l Hline Hm).
  unfold filename_of. destruct (p =? "")%string; reflexivity.
Qed.

Lemma processResponse_minus_one_witness :
  run (processResponse unixClient (Some conn0) "/tmp/f") (answering "-1 no such file")
      state0 =
    (Done (Some {| Filename := "/tmp/f"; Signature := ""; Infected := false; Raw := "" |},
           Some (Errorf "Unknown status")),
     after_read state0).
Proof.
  apply (processResponse_minus_one unixClient conn0 "/tmp/f"
           (answering "-1 no such file") state0 "-1 no such file"); reflexivity.
Defined.

(** X10.  When the line cannot be read (the daemon hung up, the deadline
    passed), the decoding returns the error of the read and no
    response. *)
Theorem processResponse_read_error
    (c : Client) (conn : Conn) (p : string) (env : Env) (s : State) (e : sys_error) :
  line_of env (nread s) = Err e ->
  processResponse c (Some conn) p env s = (Done (None, Some (Sys e)), after_read s).
Proof.
  intros Hline. unfold processResponse. cbn. unfold go_bind. cbn.
  rewrite Hline. reflexivity.
Qed.

Lemma processResponse_read_error_witness :
  run (processResponse tcpClient (Some conn0) "") (scripted [] [Ok conn0] [] []) state0 =
    (Done (None, Some (Sys EOF)), after_read state0).
Proof.
  apply (processResponse_read_error tcpClient conn0 "" (scripted [] [Ok conn0] [] [])
           state0 EOF).
  reflexivity.
Defined.

(** ** The paths through [fileCmd] *)

Ltac same_state :=
  unfold with_events, after_write, after_payload, after_rejection, after_close,
    path_events, payload_events, request_events;
  cbn [ndial nwrite nread trace fst snd];
  repeat match goal with
         | |- (_, _) = (_, _) => f_equal
         | |- Build_State _ _ _ _ = Build_State _ _ _ _ => f_equal
         end;
  try reflexivity;
  rewrite <- ?app_assoc; cbn [app]; reflexivity.

(** X11.  On every transport, a path that [os.Stat] reports as not
    existing makes [Scan] return the error of [os.Stat] itself, for which
    [os.IsNotExist] holds; nothing but the stat has happened. *)
Theorem Scan_not_found
    (c : Client) (p : string) (env : Env) (s : State) (e : sys_error) :
  stat_of env p = Err e ->
  os_IsNotExist (Some (Sys e)) = true ->
  Scan c p env s = (Done (None, Some (Sys e)), after_stat p s).
Proof.
  intros Hstat Hne. unfold Scan, fileCmd. cbn. unfold go_bind. cbn.
  rewrite Hstat. cbn [err_of]. rewrite Hne. reflexivity.
Qed.

Lemma Scan_not_found_witness :
  run (Scan unixClient "./examples/data/noexist.txt")
      (scripted [("./examples/data/noexist.txt",
                  Err (PathError "stat" "./examples/data/noexist.txt" ENOENT))]
                [Ok conn0] [] [Ok "0"]) state0 =
    (Done (None, Some (Sys (PathError "stat" "./examples/data/noexist.txt" ENOENT))),
     after_stat "./examples/data/noexist.txt" state0).
Proof.
  apply (Scan_not_found unixClient "./examples/data/noexist.txt"
           (scripted [("./examples/data/noexist.txt",
                       Err (PathError "stat" "./examples/data/noexist.txt" ENOENT))]
                     [Ok conn0] [] [Ok "0"])
           state0); reflexivity.
Defined.

Lemma fileCmd_unix (c : Client) (p : string) (env : Env) (s : State) :
  is_unix (network c) = true ->
  os_IsNotExist (err_of (stat_of env p)) = false ->
  fileCmd c p env s =
  match dial c env (after_stat p s) with
  | (Done (conn, Some e), s1) => (Done (None, Some e), s1)
  | (Done (conn, None), s1) =>
      defer_ (tc_Close conn)
        (id <- tc_Next ;;
         tc_StartRequest id ;;
         conn_SetDeadline conn (cmdTimeout c) ;;
         werr <- tc_PrintfLine conn p ;;
         match werr with
         | Some e => tc_EndRequest id ;; ret (None, Some e)
         | None =>
             tc_EndRequest id ;;
             tc_StartResponse id ;;
             defer_ (tc_EndResponse id)
               (conn_SetDeadline conn (cmdTimeout c) ;;
                processResponse c conn p)
         end) env s1
  | (Panic q, s1) => (Panic q, s1)
  end.
Proof.
  intros Hu Hne. unfold fileCmd. rewrite run_bind.
  change (os_Stat p env s) with (Done (stat_of env p), after_stat p s).
  cbv beta iota zeta. rewrite Hne, Hu. cbn [negb]. rewrite run_bind.
  destruct (dial c env (after_stat p s)) as [[[conn [e|]]|q] s1]; reflexivity.
Qed.

(** X12.  Over a unix transport, for a path that [os.Stat] does not
    report as missing: once the dial has given a connection and the
    request line is written, [Scan] has sent the path itself as the one
    request line, and its result is the decoding of the line that the
    daemon sends next, with the path as the file name; the response
    pipeline is ended and the connection closed after it. *)
Theorem Scan_unix_exchange
    (c : Client) (p : string) (env : Env) (s : State) (conn : Conn) (s1 : State) :
  is_unix (network c) = true ->
  os_IsNotExist (err_of (stat_of env p)) = false ->
  dial c env (after_stat p s) = (Done (Some conn, None), s1) ->
  write_of env (nwrite s1) = None ->
  Scan c p env s =
    (fst (processResponse c (Some conn) p env (after_write (path_events c p) s1)),
     with_events [EvEndResponse 0; EvClose]
       (snd (processResponse c (Some conn) p env (after_write (path_events c p) s1)))).
Proof.
  intros Hu Hne Hdial Hw. unfold Scan. rewrite (fileCmd_unix c p env s Hu Hne), Hdial.
  unfold defer_. cbn -[processResponse]. unfold go_bind. cbn -[processResponse].
  rewrite Hw. cbn -[processResponse].
  set (s3 := after_write (path_events c p) s1).
  match goal with
  | |- context [processResponse c (Some conn) p env {| ndial := ?a; nwrite := ?b;
                                                       nread := ?d; trace := ?t |}] =>
      replace {| ndial := a; nwrite := b; nread := d; trace := t |} with s3
        by (subst s3; unfold after_write, path_events; same_state)
  end.
  destruct (processResponse c (Some conn) p env s3) as [[a|q] s2]; cbn; same_state.
Qed.

Lemma Scan_unix_exchange_witness :
  run (Scan unixClient "/tmp/eicar.tar.bz2") (answering "1:EICAR-AV-Test") state0 =
    (Done (Some {| Filename := "/tmp/eicar.tar.bz2"; Signature := "EICAR-AV-Test";
                   Infected := true; Raw := "1:EICAR-AV-Test" |}, None),
     with_events [EvEndResponse 0; EvClose]
       (after_read
          (after_write (path_events unixClient "/tmp/eicar.tar.bz2")
             (after_dial unixClient (15 * Second)
                (after_stat "/tmp/eicar.tar.bz2" state0))))).
Proof.
  apply (Scan_unix_exchange unixClient "/tmp/eicar.tar.bz2" (answering "1:EICAR-AV-Test")
           state0 conn0
           (after_dial unixClient (15 * Second) (after_stat "/tmp/eicar.tar.bz2" state0)));
    reflexivity.
Defined.

(** X13.  Over a unix transport, when the writing of the request line
    fails, [Scan] returns that error and no response; it reads nothing,
    and the connection is closed. *)
Theorem Scan_unix_write_error
    (c : Client) (p : string) (env : Env) (s : State) (conn : Conn) (s1 : State)
    (e : sys_error) :
  is_unix (network c) = true ->
  os_IsNotExist (err_of (stat_of env p)) = false ->
  dial c env (after_stat p s) = (Done (Some conn, None), s1) ->
  write_of env (nwrite s1) = Some e ->
  Scan c p env s =
    (Done (None, Some (Sys e)),
     after_write [EvStartRequest 0; EvSetDeadline (cmdTimeout c); EvPrintfLine p;
                  EvEndRequest 0; EvClose] s1).
Proof.
  intros Hu Hne Hdial Hw. unfold Scan. rewrite (fileCmd_unix c p env s Hu Hne), Hdial.
  unfold defer_. cbn. unfold go_bind. cbn. rewrite Hw. cbn.
  same_state.
Qed.

Lemma Scan_unix_write_error_witness :
  run (Scan unixClient "/tmp/f")
      (scripted [] [Ok conn0] [Some (OtherError "broken pipe")] [Ok "0"]) state0 =
    (Done (None, Some (Sys (OtherError "broken pipe"))),
     after_write [EvStartRequest 0; EvSetDeadline (cmdTimeout unixClient);
                  EvPrintfLine "/tmp/f"; EvEndRequest 0; EvClose]
       (after_dial unixClient (15 * Second) (after_stat "/tmp/f" state0))).
Proof.
  apply (Scan_unix_write_error unixClient "/tmp/f"
           (scripted [] [Ok conn0] [Some (OtherError "broken pipe")] [Ok "0"])
           state0 conn0
           (after_dial unixClient (15 * Second) (after_stat "/tmp/f" state0)));
    reflexivity.
Defined.

Lemma fileCmd_tcp (c : Client) (p : string) (env : Env) (s : State) (fi : FileInfo) :
  is_unix (network c) = false ->
  stat_of env p = Ok fi ->
  IsDir fi = false ->
  fileCmd c p env s =
  match open_of env p with
  | Err e => (Done (None, Some (Sys e)), after_open p (after_stat p s))
  | Ok f =>
      defer_ (File_Close f) (readerCmd c (OsFile f)) env (after_open p (after_stat p s))
  end.
Proof.
  intros Hu Hstat Hdir. unfold fileCmd. rewrite run_bind.
  change (os_Stat p env s) with (Done (stat_of env p), after_stat p s).
  cbv beta iota zeta. rewrite Hstat. cbn [err_of val_of os_IsNotExist].
  rewrite Hu. cbn [negb FileInfo_IsDir]. rewrite run_bind.
  change (@ret Go Monad_Go bool (IsDir fi) env (after_stat p s))
    with (Done (IsDir fi), after_stat p s).
  cbv beta iota zeta. rewrite Hdir. rewrite run_bind.
  change (os_Open p env (after_stat p s))
    with (Done (open_of env p), after_open p (after_stat p s)).
  cbv beta iota zeta. destruct (open_of env p); reflexivity.
Qed.

(** X14.  Over a TCP-family transport, [Scan] of a regular file that can
    be opened is [ScanReader] on the open file, run after the stat and
    the open, and followed by the closing of the file, whatever
    [ScanReader] returns and also when it panics. *)
Theorem Scan_tcp_is_ScanReader
    (c : Client) (p : string) (env : Env) (s : State) (fi : FileInfo) (f : File) :
  is_unix (network c) = false ->
  stat_of env p = Ok fi ->
  IsDir fi = false ->
  open_of env p = Ok f ->
  Scan c p env s =
    (fst (ScanReader c (OsFile f) env (after_open p (after_stat p s))),
     with_events [EvFileClose (file_name f)]
       (snd (ScanReader c (OsFile f) env (after_open p (after_stat p s))))).
Proof.
  intros Hu Hstat Hdir Hopen. unfold Scan, ScanReader.
  rewrite (fileCmd_tcp c p env s fi Hu Hstat Hdir), Hopen.
  unfold defer_.
  destruct (readerCmd c (OsFile f) env (after_open p (after_stat p s)))
    as [[a|q] s2]; reflexivity.
Qed.

Lemma Scan_tcp_is_ScanReader_witness :
  fst (run (Scan tcpClient "./examples/data/eicar.txt")
         (scripted [] [Ok conn0] [] [Ok "OK"; Ok "1:EICAR-AV-Test"]) state0) =
    Done (Some eicar_reply, None).
Proof.
  unfold run.
  rewrite (Scan_tcp_is_ScanReader tcpClient "./examples/data/eicar.txt"
             (scripted [] [Ok conn0] [] [Ok "OK"; Ok "1:EICAR-AV-Test"]) state0
             {| IsDir := false; Size := 68 |}
             {| file_name := "./examples/data/eicar.txt";
                file_stat := Ok {| IsDir := false; Size := 68 |};
                file_data := "X5O!P%@AP[4\PZX54(P^)7CC)7}$EICAR-STANDARD-ANTIVIRUS-TEST-FILE!$H+H*" |}
             eq_refl eq_refl eq_refl eq_refl).
  vm_compute. reflexivity.
Defined.

(** X15.  Over a TCP-family transport, when the file cannot be opened,
    [Scan] returns the error of [os.Open] and no response; nothing is
    dialled. *)
Theorem Scan_tcp_open_error
    (c : Client) (p : string) (env : Env) (s : State) (fi : FileInfo) (e : sys_error) :
  is_unix (network c) = false ->
  stat_of env p = Ok fi ->
  IsDir fi = false ->
  open_of env p = Err e ->
  Scan c p env s = (Done (None, Some (Sys e)), after_open p (after_stat p s))
  /\ filter is_network (trace (after_open p (after_stat p s))) =
       filter is_network (trace s).
Proof.
  intros Hu Hstat Hdir Hopen. split.
  - unfold Scan. rewrite (fileCmd_tcp c p env s fi Hu Hstat Hdir), Hopen. reflexivity.
  - cbn [after_open after_stat trace]. rewrite !network_events_app. cbn.
    now rewrite !app_nil_r.
Qed.

Lemma Scan_tcp_open_error_witness :
  run (Scan tcpClient "/etc/shadow") unreadable state0 =
    (Done (None, Some (Sys (PathError "open" "/etc/shadow" EACCES))),
     after_open "/etc/shadow" (after_stat "/etc/shadow" state0))
  /\ filter is_network (trace (after_open "/etc/shadow" (after_stat "/etc/shadow" state0))) =
       filter is_network (trace state0).
Proof.
  apply (Scan_tcp_open_error tcpClient "/etc/shadow" unreadable state0
           {| IsDir := false; Size := 12 |} (PathError "open" "/etc/shadow" EACCES));
    reflexivity.
Defined.

(** ** The paths through [readerCmd] *)

(** Runs [readerCmd] up to the writing of the request line. *)
Ltac reader_run Hdial Hclen :=
  unfold ScanReader, readerCmd;
  rewrite run_bind, Hdial; unfold defer_; rewrite run_bind, Hclen;
  cbn -[processResponse fmt_d]; unfold go_bind; cbn -[processResponse fmt_d].

(** X16.  A stream request that meets no failure: with the connection
    there, the length [N] known, the request line written, the line "OK"
    read and the payload copied, [ScanReader] has sent "stream/N", then
    the bytes of the source, then flushed, in that order; its result is
    the decoding of the line that the daemon sends next, under the file
    name "stream", and the connection is closed after it. *)
Theorem ScanReader_exchange
    (c : Client) (i : Reader) (env : Env) (s : State)
    (conn : Conn) (s1 : State) (N : Z) (s2 : State) :
  dial c env s = (Done (Some conn, None), s1) ->
  clen_of i env s1 = (Done (inl N), s2) ->
  write_of env (nwrite s2) = None ->
  line_of env (nread s2) = Ok "OK" ->
  write_of env (S (nwrite s2)) = None ->
  ScanReader c i env s =
    (fst (processResponse c (Some conn) "" env (after_payload c i N s2)),
     with_events [EvEndResponse 0; EvClose]
       (snd (processResponse c (Some conn) "" env (after_payload c i N s2)))).
Proof.
  intros Hdial Hclen Hw Hl Hc. reader_run Hdial Hclen.
  rewrite Hw. cbn -[processResponse fmt_d]. rewrite Hl. cbn -[processResponse fmt_d].
  rewrite Hc. cbn -[processResponse fmt_d].
  set (s3 := after_payload c i N s2).
  match goal with
  | |- context [processResponse c (Some conn) "" env {| ndial := ?a; nwrite := ?b;
                                                        nread := ?d; trace := ?t |}] =>
      replace {| ndial := a; nwrite := b; nread := d; trace := t |} with s3
        by (subst s3; unfold after_payload, request_events, payload_events; same_state)
  end.
  destruct (processResponse c (Some conn) "" env s3) as [[a|q] s4]; cbn; same_state.
Qed.

Lemma ScanReader_exchange_witness :
  run (ScanReader tcpClient (StringsReader "X5O!P%@AP"))
      (scripted [] [Ok conn0] [] [Ok "OK"; Ok "0"]) state0 =
    (Done (Some {| Filename := "stream"; Signature := ""; Infected := false;
                   Raw := "0" |}, None),
     with_events [EvEndResponse 0; EvClose]
       (after_read
          (after_payload tcpClient (StringsReader "X5O!P%@AP") 9
             (after_dial tcpClient (15 * Second) state0)))).
Proof.
  apply (ScanReader_exchange tcpClient (StringsReader "X5O!P%@AP")
           (scripted [] [Ok conn0] [] [Ok "OK"; Ok "0"]) state0 conn0
           (after_dial tcpClient (15 * Second) state0) 9
           (after_dial tcpClient (15 * Second) state0));
    reflexivity.
Defined.

(** X17.  The failures of a stream request on the connection, the length
    [N] being known: when the request line cannot be written, or the
    acknowledgement cannot be read, or the payload cannot be copied,
    [ScanReader] returns that very error and no response, goes no
    further (no payload after a failed acknowledgement, no status line
    read after a failed copy), and closes the connection. *)
Theorem ScanReader_io_errors
    (c : Client) (i : Reader) (env : Env) (s : State)
    (conn : Conn) (s1 : State) (N : Z) (s2 : State) (e : sys_error) :
  dial c env s = (Done (Some conn, None), s1) ->
  clen_of i env s1 = (Done (inl N), s2) ->
  (write_of env (nwrite s2) = Some e ->
   ScanReader c i env s =
     (Done (None, Some (Sys e)),
      after_write (request_events c N ++ [EvEndRequest 0; EvClose]) s2))
  /\ (write_of env (nwrite s2) = None ->
      line_of env (nread s2) = Err e ->
      ScanReader c i env s =
        (Done (None, Some (Sys e)), after_rejection c N s2))
  /\ (write_of env (nwrite s2) = None ->
      line_of env (nread s2) = Ok "OK" ->
      write_of env (S (nwrite s2)) = Some e ->
      ScanReader c i env s =
        (Done (None, Some (Sys e)),
         {| ndial := ndial s2; nwrite := S (S (nwrite s2)); nread := S (nread s2);
            trace := trace s2 ++ request_events c N
                     ++ [EvSetDeadline (cmdTimeout c); EvReadLine;
                         EvSetDeadline (cmdTimeout c); EvCopy (reader_data i);
                         EvEndRequest 0; EvClose] |})).
Proof.
  intros Hdial Hclen. reader_run Hdial Hclen.
  split; [|split].
  - intros Hw. rewrite Hw. cbn -[fmt_d].
    unfold after_write, request_events. same_state.
  - intros Hw Hl. rewrite Hw. cbn -[fmt_d]. rewrite Hl. cbn -[fmt_d].
    unfold after_rejection, request_events. same_state.
  - intros Hw Hl Hc. rewrite Hw. cbn -[fmt_d]. rewrite Hl. cbn -[fmt_d].
    rewrite Hc. cbn -[fmt_d]. unfold request_events. same_state.
Qed.

Lemma ScanReader_io_errors_witness :
  run (ScanReader tcpClient (BytesReader "X5O!"))
      (scripted [] [Ok conn0] [None; Some (OtherError "broken pipe")] [Ok "OK"; Ok "0"])
      state0 =
    (Done (None, Some (Sys (OtherError "broken pipe"))),
     {| ndial := 1; nwrite := 2; nread := 1;
        trace := [EvDial "tcp" "127.1.1.1:4010" (15 * Second)]
                 ++ request_events tcpClient 4
                 ++ [EvSetDeadline (cmdTimeout tcpClient); EvReadLine;
                     EvSetDeadline (cmdTimeout tcpClient); EvCopy "X5O!";
                     EvEndRequest 0; EvClose] |}).
Proof.
  refine (proj2 (proj2 (ScanReader_io_errors tcpClient (BytesReader "X5O!")
           (scripted [] [Ok conn0] [None; Some (OtherError "broken pipe")] [Ok "OK"; Ok "0"])
           state0 conn0 (after_dial tcpClient (15 * Second) state0) 4
           (after_dial tcpClient (15 * Second) state0) (OtherError "broken pipe")
           eq_refl eq_refl)) _ _ _); reflexivity.
Defined.

(** X18.  The failures of a stream request before anything is sent: when
    the dial fails, [ScanReader] returns the error of the dial and does
    nothing more; when the source is an open file whose [Stat] fails, it
    returns the error of [Stat], having sent nothing, and closes the
    connection. *)
Theorem ScanReader_early_errors
    (c : Client) (i : Reader) (env : Env) (s : State)
    (conn : option Conn) (s1 : State) :
  (forall e,
     dial c env s = (Done (conn, Some e), s1) ->
     ScanReader c i env s = (Done (None, Some e), s1))
  /\ (forall cn f e,
        dial c env s = (Done (Some cn, None), s1) ->
        i = OsFile f ->
        file_stat f = Err e ->
        ScanReader c i env s =
          (Done (None, Some (Sys e)),
           with_events [EvFileStat (file_name f); EvClose] s1)).
Proof.
  split.
  - intros e Hdial. unfold ScanReader, readerCmd. rewrite run_bind, Hdial. reflexivity.
  - intros cn f e Hdial -> Hstat. unfold ScanReader, readerCmd.
    rewrite run_bind, Hdial. unfold defer_. cbn. unfold go_bind. cbn.
    rewrite Hstat. cbn. same_state.
Qed.

Lemma ScanReader_early_errors_witness :
  run (ScanReader tcpClient (OsFile stale_file)) (answering "OK") state0 =
    (Done (None, Some (Sys (PathError "stat" "/mnt/nfs/report.pdf" EIO))),
     with_events [EvFileStat "/mnt/nfs/report.pdf"; EvClose]
       (after_dial tcpClient (15 * Second) state0)).
Proof.
  refine (proj2 (ScanReader_early_errors tcpClient (OsFile stale_file) (answering "OK")
                   state0 (Some conn0) (after_dial tcpClient (15 * Second) state0))
            conn0 stale_file _ _ _ _); reflexivity.
Defined.

(** ** Properties of every run *)

Lemma emits_bind_ret {A B} (P : Event -> Prop) (a : A) (k : A -> Go B) :
  emits P (k a) -> emits P (bind (ret a) k).
Proof. intros H env s. exact (H env s). Qed.

Ltac emits_step side :=
  lazymatch goal with
  | |- emits _ (bind (ret _) _) => apply emits_bind_ret; cbv beta
  | |- emits _ (bind _ _) => apply emits_bind; [|intros ?]
  | |- emits _ (ret _) => apply emits_ret
  | |- emits _ (go_panic _) => apply emits_panic
  | |- emits _ (defer_ _ _) => apply emits_defer
  | |- emits _ (processResponse _ _ _) => apply emits_processResponse; solve [side]
  | |- emits _ (tc_PrintfLine _ _) => apply emits_tc_PrintfLine; solve [side]
  | |- emits _ (tc_ReadLine _) => apply emits_tc_ReadLine; solve [side]
  | |- emits _ (io_Copy _ _) => apply emits_io_Copy; solve [side]
  | |- emits _ (os_Stat _) => apply emits_os_Stat; solve [side]
  | |- emits _ (os_Open _) => apply emits_os_Open; solve [side]
  | |- emits _ (on_conn _ _) => apply emits_on_conn
  | |- emits _ (emit _) => apply emits_emit; solve [side]
  | |- emits _ (match ?x with _ => _ end) => destruct x
  end.

Ltac emits_all side :=
  unfold clen_of, File_Stat, File_Close, conn_SetDeadline, tc_Flush, tc_Close,
    tc_Next, tc_StartRequest, tc_EndRequest, tc_StartResponse, tc_EndResponse,
    FileInfo_IsDir;
  repeat emits_step side.

Lemma emits_reader_body (P : Event -> Prop) (c : Client) (i : Reader) (conn : option Conn) :
  P EvReadLine -> P (EvCopy (reader_data i)) -> P EvFlush ->
  P (EvSetDeadline (cmdTimeout c)) ->
  (forall f, i = OsFile f -> P (EvFileStat (file_name f))) ->
  P (EvStartRequest 0) /\ P (EvEndRequest 0)
  /\ P (EvStartResponse 0) /\ P (EvEndResponse 0) ->
  (forall n, P (EvPrintfLine ("stream/" ++ fmt_d n))) ->
  emits P
    (cl <- clen_of i ;;
     match cl with
     | inr e => ret (None, Some e)
     | inl clen =>
         id <- tc_Next ;;
         tc_StartRequest id ;;
         conn_SetDeadline conn (cmdTimeout c) ;;
         werr <- tc_PrintfLine conn ("stream/" ++ fmt_d clen) ;;
         match werr with
         | Some e => tc_EndRequest id ;; ret (None, Some e)
         | None =>
             conn_SetDeadline conn (cmdTimeout c) ;;
             rl <- tc_ReadLine conn ;;
             match rl with
             | Err e => tc_EndRequest id ;; ret (None, Some (Sys e))
             | Ok l =>
                 if negb (l =? "OK")%string then
                   tc_EndRequest id ;;
                   ret (None, Some (Errorf (invalidRespErr l)))
                 else
                   conn_SetDeadline conn (cmdTimeout c) ;;
                   cerr <- io_Copy conn i ;;
                   match cerr with
                   | Some e => tc_EndRequest id ;; ret (None, Some e)
                   | None =>
                       tc_Flush conn ;;
                       tc_EndRequest id ;;
                       tc_StartResponse id ;;
                       defer_ (tc_EndResponse id)
                         (conn_SetDeadline conn (cmdTimeout c) ;;
                          processResponse c conn "")
                   end
             end
         end
     end).
Proof.
  intros Hr Hc Hf Hd Hfs (Hp1 & Hp2 & Hp3 & Hp4) Hl.
  emits_all ltac:(auto).
Qed.

Lemma emits_dial (P : Event -> Prop) (c : Client) :
  P (EvDial (network c) (address c) (dial_timeout c)) ->
  P (EvSleep (connSleep c)) ->
  emits P (dial c).
Proof. intros Hd Hs. unfold dial. now apply emits_dial_loop. Qed.

Lemma emits_readerCmd (P : Event -> Prop) (c : Client) (i : Reader) :
  (forall e, stream_event c i e -> P e) -> emits P (readerCmd c i).
Proof.
  intros H. unfold readerCmd.
  apply emits_bind.
  { apply emits_dial; apply H; cbn; auto. }
  intros [conn [e|]]; [apply emits_ret|].
  apply emits_defer.
  { apply emits_on_conn, emits_emit, H. exact I. }
  apply emits_reader_body; try (apply H; cbn; auto; fail).
  - intros f ->. apply H. cbn. eauto.
  - repeat split; apply H; reflexivity.
  - intros n. apply H. cbn. eauto.
Qed.

(** X19.  Whatever happens, [ScanReader] does nothing but this: it dials
    the address of the client (sleeping [connSleep] between attempts),
    sets deadlines of [cmdTimeout], sends lines of the form "stream/N",
    reads lines, copies the bytes of its source, flushes and closes the
    connection.  It never stats or opens a path and never closes the
    source: a file handed to it stays open. *)
Theorem ScanReader_events (c : Client) (i : Reader) :
  emits (stream_event c i) (ScanReader c i).
Proof. apply emits_readerCmd. auto. Qed.

Lemma emits_fileCmd_unix (P : Event -> Prop) (c : Client) (p : string) :
  is_unix (network c) = true ->
  (forall e, unix_event c p e -> P e) -> emits P (fileCmd c p).
Proof.
  intros Hu H. unfold fileCmd. rewrite Hu. cbn [negb].
  assert (Hs : forall e, session_event c e -> P e).
  { intros e He. apply H. destruct e; cbn in *; auto; contradiction. }
  apply emits_bind; [apply emits_os_Stat, H; reflexivity|]. intros st.
  destruct (os_IsNotExist (err_of st)); [apply emits_ret|].
  apply emits_bind; [apply emits_dial; apply Hs; cbn; auto|].
  intros [conn [e|]]; [apply emits_ret|].
  assert (Hl : P (EvPrintfLine p)) by (apply H; reflexivity).
  assert (Hd : P (EvSetDeadline (cmdTimeout c))) by (apply Hs; reflexivity).
  assert (H1 : P (EvStartRequest 0)) by (apply Hs; reflexivity).
  assert (H2 : P (EvEndRequest 0)) by (apply Hs; reflexivity).
  assert (H3 : P (EvStartResponse 0)) by (apply Hs; reflexivity).
  assert (H4 : P (EvEndResponse 0)) by (apply Hs; reflexivity).
  assert (H5 : P EvReadLine) by (apply Hs; exact I).
  assert (H6 : P EvClose) by (apply Hs; exact I).
  emits_all ltac:(auto).
Qed.

(** X20.  Over a unix transport, whatever happens, [Scan] of the path [p]
    does nothing but this: it stats [p], dials the address of the client,
    sets deadlines of [cmdTimeout], sends [p] as a line, reads lines and
    closes the connection.  It never opens the file and never sends any
    of its bytes. *)
Theorem Scan_unix_events (c : Client) (p : string) :
  is_unix (network c) = true ->
  emits (unix_event c p) (Scan c p).
Proof. intros Hu. apply emits_fileCmd_unix; auto. Qed.

Lemma Scan_unix_events_witness :
  exists evs,
    trace (snd (run (Scan unixClient "/tmp/f") (answering "0") state0)) =
      (trace state0 ++ evs)%list
    /\ Forall (unix_event unixClient "/tmp/f") evs.
Proof.
  exact (Scan_unix_events unixClient "/tmp/f" eq_refl (answering "0") state0).
Defined.

Lemma defer_emit_trace {A} (e : Event) (body : Go A) (env : Env) (s : State) :
  trace (snd (defer_ (emit e) body env s)) = (trace (snd (body env s)) ++ [e])%list.
Proof.
  unfold defer_. destruct (body env s) as [[a|q] s1]; reflexivity.
Qed.

Lemma fileCmd_tcp_directory (c : Client) (p : string) (env : Env) (s : State)
    (fi : FileInfo) :
  is_unix (network c) = false ->
  stat_of env p = Ok fi ->
  IsDir fi = true ->
  fileCmd c p env s = (Done (None, Some (Errorf tcpDirErr)), after_stat p s).
Proof.
  intros Hu Hstat Hdir. unfold fileCmd. cbn. unfold go_bind. cbn.
  rewrite Hstat. cbn. rewrite Hu. cbn. rewrite Hdir. reflexivity.
Qed.

Lemma fileCmd_not_found (c : Client) (p : string) (env : Env) (s : State)
    (e : sys_error) :
  stat_of env p = Err e ->
  os_IsNotExist (Some (Sys e)) = true ->
  fileCmd c p env s = (Done (None, Some (Sys e)), after_stat p s).
Proof.
  intros Hstat Hne. unfold fileCmd. cbn. unfold go_bind. cbn.
  rewrite Hstat. cbn [err_of]. rewrite Hne. reflexivity.
Qed.

(** X21.  Over a TCP-family transport, whatever happens, every line that
    [Scan] sends has the form "stream/N": the path itself is never sent
    to the daemon; the only path it stats and opens is the path given;
    and a payload it copies is the content of the file that [os.Open]
    gave for that path, which is also the only file it stats and
    closes. *)
Theorem Scan_tcp_events (c : Client) (p : string) (env : Env) (s : State) :
  is_unix (network c) = false ->
  exists evs,
    trace (snd (Scan c p env s)) = (trace s ++ evs)%list
    /\ Forall (fun e =>
                 match e with
                 | EvPrintfLine l => exists n, l = "stream/" ++ fmt_d n
                 | EvStat q | EvOpen q => q = p
                 | EvCopy d => exists f, open_of env p = Ok f /\ d = file_data f
                 | EvFileStat n | EvFileClose n =>
                     exists f, open_of env p = Ok f /\ n = file_name f
                 | _ => True
                 end) evs.
Proof.
  intros Hu. unfold Scan.
  destruct (stat_of env p) as [fi|e] eqn:Hstat.
  - destruct (IsDir fi) eqn:Hdir.
    { rewrite (fileCmd_tcp_directory c p env s fi Hu Hstat Hdir).
      exists [EvStat p]. split; [reflexivity | repeat constructor]. }
    rewrite (fileCmd_tcp c p env s fi Hu Hstat Hdir).
    destruct (open_of env p) as [f|e] eqn:Hopen.
    + change (File_Close f) with (emit (EvFileClose (file_name f))).
      rewrite defer_emit_trace.
      destruct (emits_readerCmd (stream_event c (OsFile f)) c (OsFile f)
                  (fun e H => H) env (after_open p (after_stat p s)))
        as (evs & E & F).
      rewrite E. cbn [after_open after_stat trace].
      exists ([EvStat p; EvOpen p] ++ evs ++ [EvFileClose (file_name f)])%list.
      split; [rewrite <- !app_assoc; reflexivity|].
      apply Forall_app. split; [repeat constructor|].
      apply Forall_app. split.
      * eapply Forall_impl; [|exact F].
        intros e He. destruct e; cbn in He |- *; try contradiction; auto.
        -- destruct He as (f0 & Ef & ->). inversion Ef; subst. eauto.
        -- eauto.
      * repeat constructor. eauto.
    + exists [EvStat p; EvOpen p]. split.
      * cbn. now rewrite <- app_assoc.
      * repeat constructor.
  - destruct (os_IsNotExist (Some (Sys e))) eqn:Hne.
    + rewrite (fileCmd_not_found c p env s e Hstat Hne).
      exists [EvStat p]. split; [reflexivity | repeat constructor].
    + rewrite (fileCmd_stat_error c p env s e Hu Hstat Hne).
      exists [EvStat p]. split; [reflexivity | repeat constructor].
Qed.

Lemma Scan_tcp_events_witness :
  exists evs,
    trace (snd (run (Scan tcpClient "/tmp/f")
                  (scripted [] [Ok conn0] [] [Ok "OK"; Ok "0"]) state0)) =
      (trace state0 ++ evs)%list
    /\ Forall (fun e =>
                 match e with
                 | EvPrintfLine l => exists n, l = "stream/" ++ fmt_d n
                 | EvStat q | EvOpen q => q = "/tmp/f"
                 | EvCopy d =>
                     exists f,
                       open_of (scripted [] [Ok conn0] [] [Ok "OK"; Ok "0"]) "/tmp/f" = Ok f
                       /\ d = file_data f
                 | EvFileStat n | EvFileClose n =>
                     exists f,
                       open_of (scripted [] [Ok conn0] [] [Ok "OK"; Ok "0"]) "/tmp/f" = Ok f
                       /\ n = file_name f
                 | _ => True
                 end) evs.
Proof.
  exact (Scan_tcp_events tcpClient "/tmp/f"
           (scripted [] [Ok conn0] [] [Ok "OK"; Ok "0"]) state0 eq_refl).
Defined.

(** *** One dial for one scan *)

Lemma attempts_no_dial (evs : list Event) : Forall no_dial evs -> attempts evs = 0%nat.
Proof.
  unfold attempts. induction 1 as [|e evs He _ IH]; [reflexivity|].
  cbn. unfold no_dial in He. now rewrite He.
Qed.

Lemma emits_no_dial {A} (m : Go A) : emits no_dial m -> dials_at_most 0 m.
Proof.
  intros H env s. destruct (H env s) as (evs & E & F).
  rewrite E, attempts_app, (attempts_no_dial _ F). lia.
Qed.

Lemma dials_bind_first {A B} (n : nat) (m : Go A) (k : A -> Go B) :
  dials_at_most n m -> (forall a, emits no_dial (k a)) ->
  dials_at_most n (bind m k).
Proof.
  intros Hm Hk env s. rewrite run_bind. specialize (Hm env s).
  destruct (m env s) as [[a|q] s1]; cbn [snd] in *; [|exact Hm].
  pose proof (emits_no_dial _ (Hk a) env s1) as H. lia.
Qed.

Lemma dials_bind_then {A B} (n : nat) (m : Go A) (k : A -> Go B) :
  emits no_dial m -> (forall a, dials_at_most n (k a)) ->
  dials_at_most n (bind m k).
Proof.
  intros Hm Hk env s. rewrite run_bind.
  pose proof (emits_no_dial _ Hm env s) as H.
  destruct (m env s) as [[a|q] s1]; cbn [snd] in *; [|lia].
  specialize (Hk a env s1). lia.
Qed.

Lemma dials_defer {A} (n : nat) (cleanup : Go unit) (body : Go A) :
  emits no_dial cleanup -> dials_at_most n body ->
  dials_at_most n (defer_ cleanup body).
Proof.
  intros Hc Hb env s. unfold defer_. specialize (Hb env s).
  destruct (body env s) as [[a|q] s1]; cbn [snd] in *;
    pose proof (emits_no_dial _ Hc env s1) as H;
    destruct (cleanup env s1) as [[u|q'] s2]; cbn [snd] in *; lia.
Qed.

Lemma dials_ret {A} (n : nat) (a : A) : dials_at_most n (ret a).
Proof. intros env s. cbn. lia. Qed.

Lemma dials_dial (c : Client) :
  dials_at_most (Z.to_nat (connRetries c + 1)) (dial c).
Proof. intros env s. unfold dial. apply dial_loop_attempts. Qed.

Lemma dials_readerCmd (c : Client) (i : Reader) :
  dials_at_most (Z.to_nat (connRetries c + 1)) (readerCmd c i).
Proof.
  unfold readerCmd. apply dials_bind_first; [apply dials_dial|].
  intros [conn [e|]]; [apply emits_ret|].
  apply emits_defer; [apply emits_on_conn, emits_emit; reflexivity|].
  apply emits_reader_body; try reflexivity; try (intros; reflexivity).
  repeat split.
Qed.

Lemma dials_fileCmd (c : Client) (p : string) :
  dials_at_most (Z.to_nat (connRetries c + 1)) (fileCmd c p).
Proof.
  unfold fileCmd.
  apply dials_bind_then; [apply emits_os_Stat; reflexivity|]. intros st.
  destruct (os_IsNotExist (err_of st)); [apply dials_ret|].
  destruct (negb (is_unix (network c))).
  - apply dials_bind_then.
    { unfold FileInfo_IsDir. destruct (val_of st); [apply emits_ret | apply emits_panic]. }
    intros [|]; [apply dials_ret|].
    apply dials_bind_then; [apply emits_os_Open; reflexivity|].
    intros [f|e]; [|apply dials_ret].
    apply dials_defer; [apply emits_emit; reflexivity | apply dials_readerCmd].
  - apply dials_bind_first; [apply dials_dial|].
    intros [conn [e|]]; [apply emits_ret|].
    emits_all ltac:(reflexivity).
Qed.

(** X22.  One scan, one dial loop: over its whole run, happy or not,
    [Scan] as well as [ScanReader] makes at most [connRetries + 1] dial
    attempts; no failure after the dial makes it dial again. *)
Theorem scan_dials_once (c : Client) (env : Env) (s : State) :
  0 <= connRetries c < maxInt ->
  (forall p,
     (attempts (trace (snd (Scan c p env s)))
      <= attempts (trace s) + (Z.to_nat (connRetries c) + 1))%nat)
  /\ (forall i,
        (attempts (trace (snd (ScanReader c i env s)))
         <= attempts (trace s) + (Z.to_nat (connRetries c) + 1))%nat).
Proof.
  intros Hr.
  assert (Hn : Z.to_nat (connRetries c + 1) = (Z.to_nat (connRetries c) + 1)%nat) by lia.
  split.
  - intros p. rewrite <- Hn. apply dials_fileCmd.
  - intros i. rewrite <- Hn. apply dials_readerCmd.
Qed.

Lemma scan_dials_once_witness :
  0 <= connRetries retrying < maxInt
  /\ (attempts (trace (snd (run (ScanReader retrying (BytesBuffer "X5O!")) flaky state0)))
      <= 3)%nat.
Proof.
  assert (Hr : 0 <= connRetries retrying < maxInt) by (vm_compute; split; congruence).
  split; [exact Hr|].
  exact (proj2 (scan_dials_once retrying flaky state0 Hr) (BytesBuffer "X5O!")).
Defined.

(** *** The connection is closed *)

Lemma is_close_none (evs : list Event) :
  Forall no_close evs -> filter is_close evs = [].
Proof.
  induction 1 as [|e evs He _ IH]; [reflexivity|].
  cbn. unfold no_close in He. now rewrite He.
Qed.

(** X23.  When the dial has given a connection, [ScanReader] closes it
    exactly once, as the last thing it does, on every path: success,
    failure and panic alike.  When the dial has failed there is nothing
    to close, and nothing is closed. *)
Theorem ScanReader_closes_connection
    (c : Client) (i : Reader) (env : Env) (s : State)
    (conn : option Conn) (err : option error) (s1 : State) :
  dial c env s = (Done (conn, err), s1) ->
  (err = None -> conn <> None ->
   exists evs,
     trace (snd (ScanReader c i env s)) = (trace s1 ++ evs ++ [EvClose])%list
     /\ Forall (fun e => is_close e = false) evs)
  /\ (err <> None ->
      filter is_close (trace (snd (ScanReader c i env s))) = filter is_close (trace s)).
Proof.
  intros Hdial. split.
  - intros -> Hconn. destruct conn as [cn|]; [clear Hconn | congruence].
    unfold ScanReader, readerCmd. rewrite run_bind, Hdial.
    change (tc_Close (Some cn)) with (emit EvClose).
    rewrite defer_emit_trace.
    match goal with
    | |- context [snd (?body env s1)] =>
        assert (Hb : emits no_close body)
          by (apply emits_reader_body; try reflexivity; try (intros; reflexivity);
              repeat split);
        destruct (Hb env s1) as (evs & E & F)
    end.
    exists evs. rewrite E, <- app_assoc. split; [reflexivity | exact F].
  - intros Herr. destruct err as [e|]; [clear Herr | congruence].
    unfold ScanReader, readerCmd. rewrite run_bind, Hdial.
    change (trace (snd (@ret Go Monad_Go _ (@None Response, Some e) env s1)))
      with (trace s1).
    assert (Hd : emits no_close (dial c)) by (apply emits_dial; reflexivity).
    destruct (Hd env s) as (evs & E & F). rewrite Hdial in E. cbn [snd] in E.
    rewrite E, filter_app, (is_close_none _ F). apply app_nil_r.
Qed.

Lemma ScanReader_closes_connection_witness :
  exists evs,
    trace (snd (run (ScanReader tcpClient (BytesBuffer "X5O!")) (answering "1") state0)) =
      (trace (after_dial tcpClient (15 * Second) state0) ++ evs ++ [EvClose])%list
    /\ Forall (fun e => is_close e = false) evs.
Proof.
  refine (proj1 (ScanReader_closes_connection tcpClient (BytesBuffer "X5O!")
                   (answering "1") state0 (Some conn0) None
                   (after_dial tcpClient (15 * Second) state0) eq_refl) eq_refl _).
  discriminate.
Defined.

(** *** The file name of a response *)

Lemma processResponse_filename (c : Client) (tc : option Conn) (p : string) :
  post (processResponse c tc p)
       (fun x => forall r, fst x = Some r -> Filename r = filename_of p).
Proof.
  assert (H0 : Filename (if (p =? "")%string then set_Filename "stream" Response_zero
                         else set_Filename p Response_zero) = filename_of p).
  { unfold filename_of. destruct (p =? "")%string; reflexivity. }
  unfold processResponse. apply post_seq. intros [l|e].
  2: { apply post_ret. intros r E. discriminate E. }
  destruct (HasPrefix l "-1").
  { apply post_ret. intros r E. inversion E; subst. exact H0. }
  destruct (HasPrefix l "1"); cbn [orb].
  - apply post_seq. intros sig. apply post_ret.
    intros r E. inversion E; subst. exact H0.
  - destruct (HasPrefix l "0"); apply post_ret; intros r E; inversion E; subst;
      exact H0.
Qed.

Ltac post_no_response :=
  first
    [ apply post_ret; cbv beta;
      let r := fresh "r" in let E := fresh "E" in intros r E; discriminate E
    | apply post_panic
    | apply post_defer
    | apply post_on_conn
    | apply post_seq; intros ?
    | match goal with
      | |- post (match ?x with _ => _ end) _ => destruct x
      end ].

Lemma readerCmd_filename (c : Client) (i : Reader) :
  post (readerCmd c i) (fun x => forall r, fst x = Some r -> Filename r = "stream").
Proof.
  unfold readerCmd.
  repeat first [ apply (processResponse_filename c _ "") | post_no_response ].
Qed.

Lemma fileCmd_filename (c : Client) (p : string) :
  post (fileCmd c p)
       (fun x => forall r, fst x = Some r ->
                 Filename r = if is_unix (network c) then filename_of p else "stream").
Proof.
  unfold fileCmd. destruct (is_unix (network c)); cbn [negb].
  - repeat first [ apply (processResponse_filename c _ p) | post_no_response ].
  - repeat first [ apply readerCmd_filename | post_no_response ].
Qed.

(** X24.  Whenever a scan returns a response, with or without an error
    next to it, the file name in it is "stream" for [ScanReader] and for
    [Scan] over a TCP-family transport, and, for [Scan] over a unix
    transport, the path given ("stream" for the empty path). *)
Theorem scan_filename (c : Client) (env : Env) (s : State) :
  (forall i r err s',
     ScanReader c i env s = (Done (Some r, err), s') -> Filename r = "stream")
  /\ (forall p r err s',
        Scan c p env s = (Done (Some r, err), s') ->
        Filename r =
          if is_unix (network c)
          then (if (p =? "")%string then "stream" else p)
          else "stream").
Proof.
  split.
  - intros i r err s' E. exact (readerCmd_filename c i env s _ s' E r eq_refl).
  - intros p r err s' E. exact (fileCmd_filename c p env s _ s' E r eq_refl).
Qed.

Lemma scan_filename_witness :
  Filename eicar_reply = "stream".
Proof.
  refine (proj2 (scan_filename tcpClient
                   (scripted [] [Ok conn0] [] [Ok "OK"; Ok "1:EICAR-AV-Test"]) state0)
            "./examples/data/eicar.txt" eicar_reply None
            (snd (run (Scan tcpClient "./examples/data/eicar.txt")
                    (scripted [] [Ok conn0] [] [Ok "OK"; Ok "1:EICAR-AV-Test"]) state0))
            _).
  vm_compute. reflexivity.
Defined.

(** *** The panics of a scan *)

Lemma panics_bind_ret {A B} (a : A) (k : A -> Go B) (Q : panic -> Prop) :
  panics (k a) Q -> panics (bind (ret a) k) Q.
Proof. intros H env s q s' E. exact (H env s q s' E). Qed.

Lemma panics_os_Stat (p : string) (Q : panic -> Prop) : panics (os_Stat p) Q.
Proof. intros env s q s' E. discriminate E. Qed.

Lemma panics_os_Open (p : string) (Q : panic -> Prop) : panics (os_Open p) Q.
Proof. intros env s q s' E. discriminate E. Qed.

Lemma panics_dial (c : Client) (Q : panic -> Prop) : panics (dial c) Q.
Proof.
  intros env s q s' E. unfold dial in E.
  destruct (dial_loop_outcome c (if 0 <? connTimeout c then connTimeout c else 0) env
              (Z.to_nat (connRetries c + 1)) (None, None) s) as (d & s1 & E1 & _).
  rewrite E1 in E. discriminate E.
Qed.

Lemma post_dial_one_of (c : Client) : 0 <= connRetries c -> post (dial c) one_of.
Proof.
  intros Hr env s d s' E. unfold dial in E.
  destruct (dial_loop_outcome c (if 0 <? connTimeout c then connTimeout c else 0) env
              (Z.to_nat (connRetries c + 1)) (None, None) s)
    as (d1 & s1 & E1 & Hone & _).
  rewrite E1 in E. inversion E; subst. apply Hone. right. lia.
Qed.

Ltac panics_step :=
  lazymatch goal with
  | |- panics (bind (ret _) _) _ => apply panics_bind_ret; cbv beta
  | |- panics (bind _ _) _ => apply panics_seq; [|intros ?]
  | |- panics (ret _) _ => apply panics_ret
  | |- panics (emit _) _ => apply panics_emit
  | |- panics (defer_ _ _) _ => apply panics_defer
  | |- panics (processResponse _ (Some _) _) _ => apply panics_processResponse
  | |- panics (os_Stat _) _ => apply panics_os_Stat
  | |- panics (os_Open _) _ => apply panics_os_Open
  | |- panics (match ?x with _ => _ end) _ => destruct x
  | |- panics _ _ => apply panics_connected
  end.

Ltac panics_all :=
  unfold clen_of, File_Stat, File_Close, tc_Next, tc_StartRequest, tc_EndRequest,
    tc_StartResponse, tc_EndResponse;
  repeat panics_step.

Lemma panics_readerCmd (c : Client) (i : Reader) :
  0 <= connRetries c ->
  panics (readerCmd c i) (fun q => q = SliceBounds 2 1).
Proof.
  intros Hr. unfold readerCmd.
  apply panics_bind with (R := one_of);
    [now apply post_dial_one_of | apply panics_dial |].
  intros d [[conn ->] | [e ->]]; [|apply panics_ret].
  panics_all.
Qed.

(** X25.  With a number of retries that is not negative, the only panic
    of [ScanReader] is the slice out of range of C9: whatever the source
    (of the kinds modelled here, none of them a nil pointer) and whatever
    the daemon and the network do, every other path returns. *)
Theorem ScanReader_only_panic
    (c : Client) (i : Reader) (env : Env) (s : State) (q : panic) (s' : State) :
  0 <= connRetries c ->
  ScanReader c i env s = (Panic q, s') ->
  q = SliceBounds 2 1.
Proof.
  intros Hr E. exact (panics_readerCmd c i Hr env s q s' E).
Qed.

Lemma ScanReader_only_panic_witness :
  0 <= connRetries tcpClient
  /\ fst (ScanReader tcpClient (BytesBuffer "X5O!")
            (scripted [] [Ok conn0] [] [Ok "OK"; Ok "1"]) state0) =
       Panic (SliceBounds 2 1)
  /\ SliceBounds 2 1 = SliceBounds 2 1.
Proof.
  assert (Hr : 0 <= connRetries tcpClient) by (vm_compute; congruence).
  assert (E : ScanReader tcpClient (BytesBuffer "X5O!")
                (scripted [] [Ok conn0] [] [Ok "OK"; Ok "1"]) state0 =
              (Panic (SliceBounds 2 1),
               snd (ScanReader tcpClient (BytesBuffer "X5O!")
                      (scripted [] [Ok conn0] [] [Ok "OK"; Ok "1"]) state0)))
    by (vm_compute; reflexivity).
  split; [exact Hr|]. split; [rewrite E; reflexivity|].
  exact (ScanReader_only_panic tcpClient (BytesBuffer "X5O!")
           (scripted [] [Ok conn0] [] [Ok "OK"; Ok "1"]) state0 _ _ Hr E).
Defined.

Lemma panics_fileCmd_unix (c : Client) (p : string) :
  0 <= connRetries c ->
  is_unix (network c) = true ->
  panics (fileCmd c p) (fun q => q = SliceBounds 2 1).
Proof.
  intros Hr Hu. unfold fileCmd. rewrite Hu. cbn [negb].
  apply panics_seq; [apply panics_os_Stat|]. intros st.
  destruct (os_IsNotExist (err_of st)); [apply panics_ret|].
  apply panics_bind with (R := one_of);
    [now apply post_dial_one_of | apply panics_dial |].
  intros d [[conn ->] | [e ->]]; [|apply panics_ret].
  panics_all.
Qed.

(** X26.  With a number of retries that is not negative, [Scan] has two
    panics and no more: the slice out of range of C9, and, over a
    TCP-family transport alone, the nil [FileInfo] of C10, which happens
    exactly when [os.Stat] failed otherwise than with "not found". *)
Theorem Scan_only_panics
    (c : Client) (p : string) (env : Env) (s : State) (q : panic) (s' : State) :
  0 <= connRetries c ->
  Scan c p env s = (Panic q, s') ->
  q = SliceBounds 2 1
  \/ (q = NilDereference
      /\ is_unix (network c) = false
      /\ exists e, stat_of env p = Err e /\ os_IsNotExist (Some (Sys e)) = false).
Proof.
  intros Hr E. unfold Scan in E.
  destruct (is_unix (network c)) eqn:Hu.
  { left. exact (panics_fileCmd_unix c p Hr Hu env s q s' E). }
  destruct (stat_of env p) as [fi|e] eqn:Hstat.
  - left. destruct (IsDir fi) eqn:Hdir.
    + assert (H : fileCmd c p env s =
                  (Done (None, Some (Errorf tcpDirErr)), after_stat p s)).
      { unfold fileCmd. cbn. unfold go_bind. cbn. rewrite Hstat. cbn.
        rewrite Hu. cbn. rewrite Hdir. reflexivity. }
      rewrite H in E. discriminate E.
    + rewrite (fileCmd_tcp c p env s fi Hu Hstat Hdir) in E.
      destruct (open_of env p) as [f|e]; [|discriminate E].
      unfold defer_ in E.
      destruct (readerCmd c (OsFile f) env (after_open p (after_stat p s)))
        as [[a|q1] s1] eqn:E1.
      * cbn in E. discriminate E.
      * inversion E; subst.
        exact (panics_readerCmd c (OsFile f) Hr env _ _ _ E1).
  - destruct (os_IsNotExist (Some (Sys e))) eqn:Hne.
    + unfold fileCmd in E. cbn in E. unfold go_bind in E. cbn in E.
      rewrite Hstat in E. cbn [err_of] in E. rewrite Hne in E. discriminate E.
    + rewrite (fileCmd_stat_error c p env s e Hu Hstat Hne) in E.
      inversion E; subst. right. repeat split. exists e. auto.
Qed.

Lemma Scan_only_panics_witness :
  NilDereference = SliceBounds 2 1
  \/ (NilDereference = NilDereference
      /\ is_unix (network tcpClient) = false
      /\ exists e, stat_of with_forbidden "/root/private/mail" = Err e
                   /\ os_IsNotExist (Some (Sys e)) = false).
Proof.
  apply (Scan_only_panics tcpClient "/root/private/mail" with_forbidden state0
           NilDereference (after_stat "/root/private/mail" state0)).
  - vm_compute. congruence.
  - vm_compute. reflexivity.
Defined.

(** *** A deadline before every read and write *)

Lemma armed_any_prev (d : Duration) (prev : option Event) (evs : list Event) :
  armed d None evs -> armed d prev evs.
Proof.
  destruct evs as [|e evs]; [trivial|]. cbn. intros [H1 H2]. split; [|exact H2].
  intros Hio. specialize (H1 Hio). discriminate H1.
Qed.

Lemma armed_app (d : Duration) (evs1 evs2 : list Event) :
  forall prev, armed d prev evs1 -> armed d None evs2 -> armed d prev (evs1 ++ evs2).
Proof.
  induction evs1 as [|e evs1 IH]; intros prev H1 H2; cbn.
  - now apply armed_any_prev.
  - destruct H1 as [Ha Hb]. split; [exact Ha | now apply IH].
Qed.

Lemma armed_quiet (d : Duration) (evs : list Event) :
  Forall (fun e => is_io e = false) evs -> forall prev, armed d prev evs.
Proof.
  induction 1 as [|e evs He _ IH]; intros prev; cbn; [trivial|].
  split; [intros Hio; congruence | apply IH].
Qed.

Ltac armed_leaf E1 F1 :=
  cbn [snd trace after_read ret Monad_Go go_ret];
  rewrite ?E1, <- ?app_assoc; cbn [app];
  eexists; split;
  [ reflexivity
  | first
      [ apply armed_quiet; exact F1
      | apply armed_app;
        [ apply armed_quiet; exact F1
        | cbn; repeat split; intros; first [reflexivity | discriminate] ] ] ].

Ltac answer_step c env :=
  match goal with
  | |- context [write_of env ?n] =>
      destruct (write_of env n); cbn -[fmt_d processResponse]
  | |- context [line_of env ?n] =>
      destruct (line_of env n); cbn -[fmt_d processResponse]
  | |- context [negb (?l =? "OK")%string] =>
      destruct (l =? "OK")%string; cbn -[fmt_d processResponse]
  | |- context [processResponse c (Some ?cn) ?p env ?s3] =>
      let a := fresh "a" in
      let q := fresh "q" in
      let s4 := fresh "s" in
      let Ep := fresh "Ep" in
      let Hp := fresh "Hp" in
      pose proof (processResponse_trace c cn p env s3) as Hp;
      destruct (processResponse c (Some cn) p env s3) as [[a|q] s4] eqn:Ep;
      cbn [snd] in Hp; subst s4; cbn -[fmt_d processResponse]
  end.

Lemma readerCmd_deadlines (c : Client) (i : Reader) (env : Env) (s : State) :
  exists evs,
    trace (snd (readerCmd c i env s)) = (trace s ++ evs)%list
    /\ armed (cmdTimeout c) None evs.
Proof.
  assert (Hd : emits (fun e => is_io e = false) (dial c))
    by (apply emits_dial; reflexivity).
  destruct (Hd env s) as (evs1 & E1 & F1).
  unfold readerCmd. rewrite run_bind.
  destruct (dial c env s) as [[[conn [e|]]|q] s1]; cbn [snd] in E1.
  - armed_leaf E1 F1.
  - unfold defer_.
    destruct conn as [cn|]; destruct i as [v|v|v|v|v];
      cbn -[fmt_d processResponse]; unfold go_bind; cbn -[fmt_d processResponse];
      try (destruct (file_stat v); cbn -[fmt_d processResponse]);
      repeat answer_step c env.
    all: armed_leaf E1 F1.
  - armed_leaf E1 F1.
Qed.

Lemma fileCmd_deadlines (c : Client) (p : string) (env : Env) (s : State) :
  exists evs,
    trace (snd (fileCmd c p env s)) = (trace s ++ evs)%list
    /\ armed (cmdTimeout c) None evs.
Proof.
  unfold fileCmd. rewrite run_bind.
  change (os_Stat p env s) with (Done (stat_of env p), after_stat p s).
  cbv beta iota zeta.
  destruct (os_IsNotExist (err_of (stat_of env p))).
  { exists [EvStat p]. split; [reflexivity | cbn; intuition discriminate]. }
  destruct (is_unix (network c)); cbn [negb].
  - assert (Hd : emits (fun e => is_io e = false) (dial c))
      by (apply emits_dial; reflexivity).
    destruct (Hd env (after_stat p s)) as (evs1 & E1 & F1).
    rewrite run_bind.
    destruct (dial c env (after_stat p s)) as [[[conn [e|]]|q] s1]; cbn [snd] in E1.
    + cbn [after_stat trace] in E1. rewrite <- app_assoc in E1.
      assert (F2 : Forall (fun e => is_io e = false) ([EvStat p] ++ evs1))
        by (apply Forall_app; split; [repeat constructor | exact F1]).
      set (evs2 := ([EvStat p] ++ evs1)%list) in *. clearbody evs2.
      armed_leaf E1 F2.
    + cbn [after_stat trace] in E1. rewrite <- app_assoc in E1.
      assert (F2 : Forall (fun e => is_io e = false) ([EvStat p] ++ evs1))
        by (apply Forall_app; split; [repeat constructor | exact F1]).
      set (evs2 := ([EvStat p] ++ evs1)%list) in *. clearbody evs2.
      unfold defer_.
      destruct conn as [cn|];
        cbn -[fmt_d processResponse]; unfold go_bind; cbn -[fmt_d processResponse];
        repeat answer_step c env.
      all: armed_leaf E1 F2.
    + cbn [after_stat trace] in E1. rewrite <- app_assoc in E1.
      assert (F2 : Forall (fun e => is_io e = false) ([EvStat p] ++ evs1))
        by (apply Forall_app; split; [repeat constructor | exact F1]).
      set (evs2 := ([EvStat p] ++ evs1)%list) in *. clearbody evs2.
      armed_leaf E1 F2.
  - destruct (stat_of env p) as [fi|e]; cbn [val_of FileInfo_IsDir].
    2: { exists [EvStat p]. split; [reflexivity | cbn; intuition discriminate]. }
    rewrite run_bind.
    change (@ret Go Monad_Go bool (IsDir fi) env (after_stat p s))
      with (Done (IsDir fi), after_stat p s).
    cbv beta iota zeta. destruct (IsDir fi).
    { exists [EvStat p]. split; [reflexivity | cbn; intuition discriminate]. }
    rewrite run_bind.
    change (os_Open p env (after_stat p s))
      with (Done (open_of env p), after_open p (after_stat p s)).
    cbv beta iota zeta. destruct (open_of env p) as [f|e].
    2: { exists [EvStat p; EvOpen p]. split.
         - cbn. now rewrite <- app_assoc.
         - cbn; intuition discriminate. }
    change (File_Close f) with (emit (EvFileClose (file_name f))).
    rewrite defer_emit_trace.
    destruct (readerCmd_deadlines c (OsFile f) env (after_open p (after_stat p s)))
      as (evs & E & F).
    rewrite E. cbn [after_open after_stat trace].
    exists ([EvStat p; EvOpen p] ++ evs ++ [EvFileClose (file_name f)])%list. split.
    + rewrite <- !app_assoc. reflexivity.
    + apply armed_app; [cbn; intuition discriminate|].
      apply armed_app; [exact F | cbn; intuition discriminate].
Qed.

(** X27.  In every run of [Scan] and of [ScanReader], each write to the
    connection (request line, payload) and each read of a line comes
    right after a [SetDeadline] of [cmdTimeout] from now: the deadline is
    set anew for every step of the exchange. *)
Theorem scan_deadlines (c : Client) (env : Env) (s : State) :
  (forall i,
     exists evs,
       trace (snd (ScanReader c i env s)) = (trace s ++ evs)%list
       /\ armed (cmdTimeout c) None evs)
  /\ (forall p,
        exists evs,
          trace (snd (Scan c p env s)) = (trace s ++ evs)%list
          /\ armed (cmdTimeout c) None evs).
Proof.
  split; [intros i; apply readerCmd_deadlines | intros p; apply fileCmd_deadlines].
Qed.

(** ** More on the earlier revision *)

(** X28.  In the earlier revision, a line that begins with none of "0",
    "1" and "-1" is not an error: [processResponse] returns a nil error
    and a response that holds the file name alone, not marked infected
    and with an empty [Raw]. *)
Theorem Earlier_unexpected_line_accepted
    (c : Client) (conn : Conn) (p : string) (env : Env) (s : State) (l : string) :
  line_of env (nread s) = Ok l ->
  HasPrefix l "0" = false ->
  HasPrefix l "1" = false ->
  HasPrefix l "-1" = false ->
  Earlier.processResponse c (Some conn) p env s =
    (Done (Some {| Filename := if (p =? "")%string then "stream" else p;
                   Signature := ""; Infected := false; Raw := "" |}, None),
     after_read s).
Proof.
  intros Hline H0 H1 Hm.
  rewrite (Earlier_processResponse_unexpected_line c conn p env s l Hline H0 H1 Hm).
  unfold filename_of. destruct (p =? "")%string; reflexivity.
Qed.

Lemma Earlier_unexpected_line_accepted_witness :
  Earlier.processResponse unixClient (Some conn0) "/tmp/f" (answering "REJ 4") state0 =
    (Done (Some {| Filename := "/tmp/f"; Signature := ""; Infected := false; Raw := "" |},
           None),
     after_read state0).
Proof.
  apply (Earlier_unexpected_line_accepted unixClient conn0 "/tmp/f" (answering "REJ 4")
           state0 "REJ 4"); reflexivity.
Defined.

(** X29.  In the earlier revision, every client that [NewClient] returns
    has a connection timeout of 15 s, a retry delay of 1 s, no retry, and
    a command timeout of zero. *)
Theorem Earlier_NewClient_defaults
    (network0 address0 : string) (env : Env) (s : State)
    (c : Client) (err : option error) (s' : State) :
  Earlier.NewClient network0 address0 env s = (Done (Some c, err), s') ->
  connTimeout c = 15 * Second /\ cmdTimeout c = 0
  /\ connSleep c = 1 * Second /\ connRetries c = 0.
Proof. apply Earlier_NewClient_cmdTimeout. Qed.

Lemma Earlier_NewClient_defaults_witness :
  exists c,
    Earlier.NewClient "tcp" "127.1.1.1:4010" (scripted [] [] [] []) state0 =
      (Done (Some c, None), state0)
    /\ cmdTimeout c = 0.
Proof.
  eexists. split; [vm_compute; reflexivity|].
  refine (proj1 (proj2 (Earlier_NewClient_defaults "tcp" "127.1.1.1:4010"
                          (scripted [] [] [] []) state0 _ None state0 _))).
  vm_compute. reflexivity.
Defined.
